(** * Field/shape resolution and tensor-kind dispatch of [tiledb.ml.readers.types]

    A shallow embedding of [ArrayParams.__post_init__] and
    [ArrayParams.to_tensor_schema] (src/tiledb/ml/readers/types.py), followed
    by the properties of the resolver that the specification states.

    Python exceptions are results of a small error monad, Python lists are
    lists with stdpp's lookup and insert (with the [IndexError]s of a
    subscript written out), the dictionary built by the resolver is a [gmap]
    keyed by dimension index, and the transform table is a [gmap] keyed by
    [TensorKind]. *)

From Stdlib Require Import ZArith Ascii.
From stdpp Require Import base option list strings gmap.

Local Open Scope string_scope.
Local Open Scope list_scope.

(** ** Exceptions and the error monad *)

(** The exception classes that the two methods can raise, each with its
    message. *)
Inductive exn : Type :=
  | ValueError (msg : string)
  | IndexError (msg : string)
  | TypeError (msg : string)
  | NotImplementedError (msg : string)
  | TileDBError (msg : string).

Inductive result (A : Type) : Type :=
  | Ok (a : A)
  | Raise (e : exn).
Arguments Ok {A} a.
Arguments Raise {A} e.

#[global] Instance result_ret : MRet result := fun A a => Ok a.
#[global] Instance result_bind : MBind result := fun A B f m =>
  match m with
  | Ok a => f a
  | Raise e => Raise e
  end.

Definition is_Ok {A} (r : result A) : bool :=
  match r with Ok _ => true | Raise _ => false end.

(** ** The array handle

    [tiledb.Array] is an external collaborator; the resolver only reads its
    attribute and dimension metadata, its sparse/dense flag and its non-empty
    domain.  The handle is the record of exactly those observations. *)

(** NumPy dtypes a TileDB dimension or attribute can carry. *)
Inductive dtype : Type :=
  | int8 | int16 | int32 | int64
  | uint8 | uint16 | uint32 | uint64
  | float32 | float64
  | datetime64
  | bytes_
  | str_.

(** [np.issubdtype(d, np.integer)] *)
Definition is_integer_dtype (d : dtype) : bool :=
  match d with
  | int8 | int16 | int32 | int64
  | uint8 | uint16 | uint32 | uint64 => true
  | _ => false
  end.

Record Attr : Type := { attr_name : string; attr_dtype : dtype }.
Record Dim : Type := { dim_name : string; dim_dtype : dtype }.

(** A secondary slice: a single index, a [slice(start, stop, step)] or a list
    of indices. *)
Inductive SecondarySlice : Type :=
  | SliceIndex (i : Z)
  | SliceRange (start stop step : option Z)
  | SliceIndices (l : list Z).

#[global] Instance SecondarySlice_eq_dec : EqDecision SecondarySlice.
Proof. solve_decision. Defined.

(** Modelled from the spec: the [TensorKind] enumeration of
    [_tensor_schema.py], which is not among the sources; the specification
    gives it as the closed enumeration DENSE, SPARSE_COO, SPARSE_CSR,
    RAGGED. *)
Inductive TensorKind : Type := DENSE | SPARSE_COO | SPARSE_CSR | RAGGED.

#[global] Instance TensorKind_eq_dec : EqDecision TensorKind.
Proof. solve_decision. Defined.

Definition TensorKind_to_nat (k : TensorKind) : nat :=
  match k with DENSE => 0 | SPARSE_COO => 1 | SPARSE_CSR => 2 | RAGGED => 3 end.

Definition TensorKind_of_nat (n : nat) : option TensorKind :=
  match n with
  | 0 => Some DENSE | 1 => Some SPARSE_COO | 2 => Some SPARSE_CSR
  | 3 => Some RAGGED | _ => None
  end.

#[global] Instance TensorKind_countable : Countable TensorKind.
Proof.
  apply (inj_countable TensorKind_to_nat TensorKind_of_nat).
  intros []; reflexivity.
Defined.

(** [str(kind)] of an [enum.Enum] member, as interpolated in messages. *)
Definition TensorKind_str (k : TensorKind) : string :=
  match k with
  | DENSE => "TensorKind.DENSE"
  | SPARSE_COO => "TensorKind.SPARSE_COO"
  | SPARSE_CSR => "TensorKind.SPARSE_CSR"
  | RAGGED => "TensorKind.RAGGED"
  end.

(** ** Python strings

    A [string] stands for a Python [str] whose code points are all below
    256, one character per code point. *)

Definition squote : ascii := Ascii.ascii_of_nat 39.
Definition dquote : ascii := Ascii.ascii_of_nat 34.
Definition backslash : ascii := Ascii.ascii_of_nat 92.

Fixpoint mem_char (c : ascii) (s : string) : bool :=
  match s with
  | EmptyString => false
  | String c' s' => Ascii.eqb c c' || mem_char c s'
  end.

(** The digit of [n < 16] in lower-case hexadecimal. *)
Definition hex_digit (n : N) : ascii :=
  Ascii.ascii_of_N (if (n <? 10)%N then 48 + n else 87 + n)%N.

(** The escape [\xHH] of a character. *)
Definition hex_escape (c : ascii) : string :=
  let n := Ascii.N_of_ascii c in
  String backslash
    (String "x"%char (String (hex_digit (n / 16)) (String (hex_digit (n mod 16))
       EmptyString))).

(** The quote [repr] encloses a string in: a double quote when the string
    has a single quote and no double quote, a single quote otherwise. *)
Definition repr_quote (s : string) : ascii :=
  if mem_char squote s && negb (mem_char dquote s) then dquote else squote.

(** What [repr] writes for one character: the enclosing quote and the
    backslash are escaped with a backslash; tab, newline and carriage return
    have their letter escapes; the other control characters, DEL, and the
    non-printable code points from 128 up (128 to 160, and 173) are written
    as [\xHH]; every other character stands for itself. *)
Definition repr_char (quote c : ascii) : string :=
  let n := Ascii.N_of_ascii c in
  if Ascii.eqb c quote || Ascii.eqb c backslash
  then String backslash (String c EmptyString)
  else if (n =? 9)%N then String backslash "t"
  else if (n =? 10)%N then String backslash "n"
  else if (n =? 13)%N then String backslash "r"
  else if (n <? 32)%N || (n =? 127)%N then hex_escape c
  else if (n <? 127)%N then String c EmptyString
  else if (n <=? 160)%N || (n =? 173)%N then hex_escape c
  else String c EmptyString.

Fixpoint repr_body (quote : ascii) (s : string) : string :=
  match s with
  | EmptyString => EmptyString
  | String c s' => repr_char quote c +:+ repr_body quote s'
  end.

(** [repr(s)] of a [str]. *)
Definition py_repr (s : string) : string :=
  let quote := repr_quote s in
  String quote (repr_body quote s +:+ String quote EmptyString).

(** ** Python list primitives *)

(** The largest [Py_ssize_t] of a 64-bit build; a list has at most that many
    items. *)
Definition PY_SSIZE_T_MAX : Z := 2 ^ 63 - 1.

Definition index_out_of_range_msg : string := "list index out of range".
Definition index_too_large_msg : string :=
  "cannot fit 'int' into an index-sized integer".

(** The position a subscript [l[i]] denotes: a negative index counts from
    the end; an index outside the list raises [IndexError], with its own
    message when the integer does not fit a [Py_ssize_t] (an index within
    the list always fits). *)
Definition py_position {A : Type} (l : list A) (i : Z) : result nat :=
  let len := Z.of_nat (length l) in
  let j := if (i <? 0)%Z then (i + len)%Z else i in
  if (0 <=? j)%Z && (j <? len)%Z then Ok (Z.to_nat j)
  else if (PY_SSIZE_T_MAX <? i)%Z || (i <? - PY_SSIZE_T_MAX - 1)%Z
  then Raise (IndexError index_too_large_msg)
  else Raise (IndexError index_out_of_range_msg).

(** [list(x)] for the value [array.nonempty_domain()] returns: a tuple of
    bounds, or [None] for an array without data, which is not iterable. *)
Definition not_iterable_msg : string := "'NoneType' object is not iterable".

Definition py_list {A : Type} (x : option (list A)) : result (list A) :=
  match x with
  | Some l => Ok l
  | None => Raise (TypeError not_iterable_msg)
  end.

(** [l.index(x)]: the first position holding [x], or [ValueError]. *)
Definition list_index (x : string) (l : list string) : result nat :=
  match list_find (eq x) l with
  | Some (i, _) => Ok i
  | None => Raise (ValueError (py_repr x +:+ " is not in list"))
  end.

(** [l[0], l[k] = l[k], l[0]]: the right-hand side reads [l[k]] and then
    [l[0]], either of which raises [IndexError] when the subscript is
    outside the list; the targets, whose positions have just been read, are
    then assigned left to right. *)
Definition swap_first {A : Type} (k : Z) (l : list A) : result (list A) :=
  jk ← py_position l k;
  j0 ← py_position l 0;
  match l !! jk, l !! j0 with
  | Some xk, Some x0 => Ok (<[jk := x0]> (<[j0 := xk]> l))
  | _, _ => Raise (IndexError index_out_of_range_msg)
  end.

(** [x in l] *)
Definition py_in (x : string) (l : list string) : bool := bool_decide (x ∈ l).

(** ** [ArrayParams] *)

Section Readers.

(** The type of one non-empty-domain entry (a pair of coordinates of the
    dimension's dtype) and the type of the tensors a transform maps; the
    resolver is parametric in both. *)
Context {Bound Tensor : Type}.

Record Array : Type := {
  attrs : list Attr;              (* array.attr(i), i < array.nattr *)
  dims : list Dim;                (* array.dim(i), i < array.ndim *)
  sparse : bool;                  (* array.schema.sparse *)
  nonempty_domain : option (list Bound)
                                  (* array.nonempty_domain(): the bounds,
                                     or None for an array without data *)
}.

Definition nattr (a : Array) : nat := length (attrs a).
Definition ndim (a : Array) : nat := length (dims a).

(** [[array.attr(i).name for i in range(array.nattr)]] and
    [[array.dim(i).name for i in range(array.ndim)]] *)
Definition attr_names (a : Array) : list string := attr_name <$> attrs a.
Definition dim_names (a : Array) : list string := dim_name <$> dims a.

(** [array.dim(name)]: the dimension of that name. *)
Definition dim_by_name (a : Array) (name : string) : result Dim :=
  match list_find (fun d => dim_name d = name) (dims a) with
  | Some (_, d) => Ok d
  | None => Raise (TileDBError ("no dimension named " +:+ py_repr name))
  end.

(** [key_dim: Union[int, str]] *)
Inductive KeyDim : Type :=
  | KeyIndex (i : Z)
  | KeyName (name : string).

(** The constructor arguments of the frozen dataclass.  [secondary_slices] is
    a Python dict: its items in insertion order. *)
Record ArrayParams : Type := {
  array : Array;
  key_dim : KeyDim;
  fields : list string;
  secondary_slices : list (string * SecondarySlice);
  tensor_kind : option TensorKind
}.

(** The dictionary stored in [_tensor_schema_kwargs]. *)
Record TensorSchemaKwargs : Type := {
  _array : Array;
  _key_dim_index : Z;
  _fields : list string;
  _all_dims : list string;
  _ned : list Bound;
  _secondary_slices : gmap nat SecondarySlice;
  _query_attrs : list string;     (* _query_kwargs["attrs"] *)
  _query_dims : list string       (* _query_kwargs["dims"] *)
}.

(** The loop over [self.fields] (lines 46-52), with the two lists it appends
    to. *)
Fixpoint classify_fields (all_attrs all_dims : list string)
    (fs : list string) (attrs_acc dims_acc : list string)
    : result (list string * list string) :=
  match fs with
  | [] => Ok (attrs_acc, dims_acc)
  | f :: fs' =>
      if py_in f all_attrs then
        classify_fields all_attrs all_dims fs' (attrs_acc ++ [f]) dims_acc
      else if py_in f all_dims then
        classify_fields all_attrs all_dims fs' attrs_acc (dims_acc ++ [f])
      else Raise (ValueError ("Unknown attribute or dimension '" +:+ f +:+ "'"))
  end.

(** Lines 44-55: the final field list, the attributes and the dimensions to
    query. *)
Definition resolve_fields (all_attrs all_dims : list string)
    (fs : list string) : result (list string * list string * list string) :=
  match fs with
  | [] => Ok (all_attrs, all_attrs, [])
  | _ => '(attrs, dims) ← classify_fields all_attrs all_dims fs [] [];
         Ok (fs, attrs, dims)
  end.

(** Lines 58-62. *)
Definition resolve_key_dim_index (all_dims : list string) (k : KeyDim)
    : result Z :=
  match k with
  | KeyIndex i => Ok i
  | KeyName name => i ← list_index name all_dims; Ok (Z.of_nat i)
  end.

(** Lines 64-67. *)
Definition swap_key_dim (key_dim_index : Z) (all_dims : list string)
    (ned : list Bound) : result (list string * list Bound) :=
  if (0 <? key_dim_index)%Z then
    all_dims' ← swap_first key_dim_index all_dims;
    ned' ← swap_first key_dim_index ned;
    Ok (all_dims', ned')
  else Ok (all_dims, ned).

(** Lines 69-73: the loop over [self.secondary_slices.items()]. *)
Fixpoint resolve_secondary_slices (all_dims : list string)
    (items : list (string * SecondarySlice))
    (acc : gmap nat SecondarySlice) : result (gmap nat SecondarySlice) :=
  match items with
  | [] => Ok acc
  | (dim, secondary_slice) :: rest =>
      dim_index ← list_index dim all_dims;
      resolve_secondary_slices all_dims rest
        (if decide (0 < dim_index)%nat
         then <[dim_index := secondary_slice]> acc else acc)
  end.

(** [ArrayParams.__post_init__]: the value stored in
    [self._tensor_schema_kwargs], or the exception raised. *)
Definition __post_init__ (self : ArrayParams) : result TensorSchemaKwargs :=
  let all_attrs := attr_names (array self) in
  let all_dims := dim_names (array self) in
  '(final_fields, attrs, dims) ← resolve_fields all_attrs all_dims (fields self);
  ned ← py_list (nonempty_domain (array self));
  key_dim_index ← resolve_key_dim_index all_dims (key_dim self);
  '(all_dims, ned) ← swap_key_dim key_dim_index all_dims ned;
  secondary_slices_indices ←
    resolve_secondary_slices all_dims (secondary_slices self) ∅;
  Ok {| _array := array self;
        _key_dim_index := key_dim_index;
        _fields := final_fields;
        _all_dims := all_dims;
        _ned := ned;
        _secondary_slices := secondary_slices_indices;
        _query_attrs := attrs;
        _query_dims := dims |}.

(** *** [to_tensor_schema] *)

(** A value of the transform table: a callable or a boolean. *)
Inductive Transform : Type :=
  | TBool (b : bool)
  | TCallable (f : Tensor → Tensor).

(** Python truth value: a function object is true. *)
Definition truthy (t : Transform) : bool :=
  match t with TBool b => b | TCallable _ => true end.

(** Modelled from the spec: the schema classes of [_tensor_schema.py], which
    is not among the sources.  [TensorSchemaFactories[kind](kind=kind,
    **kwargs)] is the schema of that kind built from the resolved read plan,
    and [MappedTensorSchema] is the decorator wrapping a schema with a
    transform. *)
Inductive TensorSchema : Type :=
  | Schema (kind : TensorKind) (kwargs : TensorSchemaKwargs)
  | MappedTensorSchema (base : TensorSchema) (transform : Transform).

(** The generator expression of lines 106-109 under [all]: dimensions are
    looked up by name one after the other, and the first non-integer one
    ends the iteration. *)
Fixpoint all_integer_dims (a : Array) (names : list string) : result bool :=
  match names with
  | [] => Ok true
  | name :: rest =>
      d ← dim_by_name a name;
      if is_integer_dtype (dim_dtype d) then all_integer_dims a rest
      else Ok false
  end.

(** [transforms.get(kind, True)] *)
Definition transforms_get (transforms : gmap TensorKind Transform)
    (kind : TensorKind) : Transform :=
  default (TBool true) (transforms !! kind).

(** Lines 102-114: the kind bound to the local [tensor_kind]. *)
Definition choose_tensor_kind (self : ArrayParams) (kw : TensorSchemaKwargs)
    (transforms : gmap TensorKind Transform) : result TensorKind :=
  match tensor_kind self with
  | Some kind => Ok kind
  | None =>
      if negb (sparse (array self)) then Ok DENSE
      else
        integral ← all_integer_dims (array self) (drop 1 (_all_dims kw));
        if negb integral then Ok RAGGED
        else if negb (ndim (array self) =? 2)%nat
                || negb (truthy (transforms_get transforms SPARSE_CSR))
        then Ok SPARSE_COO
        else Ok SPARSE_CSR
  end.

Definition slicing_msg : string :=
  "Slicing on secondary indices is only implemented for dense arrays".

Definition mapping_msg (kind : TensorKind) : string :=
  "Mapping to " +:+ TensorKind_str kind +:+ " tensors is not implemented".

(** [ArrayParams.to_tensor_schema], on an instance whose
    [_tensor_schema_kwargs] is [kw]. *)
Definition to_tensor_schema (self : ArrayParams) (kw : TensorSchemaKwargs)
    (transforms : gmap TensorKind Transform) : result TensorSchema :=
  tensor_kind ← choose_tensor_kind self kw transforms;
  if negb (bool_decide (tensor_kind = DENSE))
     && (0 <? length (secondary_slices self))%nat
  then Raise (NotImplementedError slicing_msg)
  else
    let transform := transforms_get transforms tensor_kind in
    if negb (truthy transform)
    then Raise (NotImplementedError (mapping_msg tensor_kind))
    else
      let tensor_schema := Schema tensor_kind kw in
      match transform with
      | TBool true => Ok tensor_schema
      | _ => Ok (MappedTensorSchema tensor_schema transform)
      end.

End Readers.

Arguments Array : clear implicits.
Arguments ArrayParams : clear implicits.
Arguments TensorSchemaKwargs : clear implicits.
Arguments Transform : clear implicits.
Arguments TensorSchema : clear implicits.

(** ** Vocabulary of the specification *)

Section Vocabulary.

Context {Bound Tensor : Type}.

(** The position of the dimension that a selector designates: an index
    within [0, ndim), or the position of the dimension of that name. *)
Definition key_dim_position (a : Array Bound) (k : KeyDim) : option nat :=
  match k with
  | KeyIndex i =>
      if decide (0 ≤ i < Z.of_nat (ndim a))%Z then Some (Z.to_nat i) else None
  | KeyName name => fst <$> list_find (eq name) (dim_names a)
  end.

(** The transposition of positions [0] and [k]. *)
Definition swap_position (k i : nat) : nat :=
  if decide (i = 0)%nat then k else if decide (i = k) then 0%nat else i.

Definition unknown_field_msg (f : string) : string :=
  "Unknown attribute or dimension '" +:+ f +:+ "'".

Definition not_in_list_msg (x : string) : string :=
  py_repr x +:+ " is not in list".

Definition known_field (a : Array Bound) (f : string) : Prop :=
  f ∈ attr_names a ∨ f ∈ dim_names a.

(** Some dimension of [ds] has a non-integer dtype. *)
Definition has_non_integer_dim (ds : list Dim) : bool :=
  existsb (fun d => negb (is_integer_dtype (dim_dtype d))) ds.

(** The transform table maps SPARSE_CSR to [False]. *)
Definition csr_disabled (transforms : gmap TensorKind (Transform Tensor))
    : bool :=
  match transforms !! SPARSE_CSR with
  | Some (TBool false) => true
  | _ => false
  end.

(** The kind the specification prescribes for an instance whose key
    dimension is at position [k] of the array's dimensions. *)
Definition spec_tensor_kind (self : ArrayParams Bound) (k : nat)
    (transforms : gmap TensorKind (Transform Tensor)) : TensorKind :=
  match tensor_kind self with
  | Some kind => kind
  | None =>
      if negb (sparse (array self)) then DENSE
      else if has_non_integer_dim (delete k (dims (array self))) then RAGGED
      else if bool_decide (ndim (array self) ≠ 2%nat) || csr_disabled transforms
      then SPARSE_COO
      else SPARSE_CSR
  end.

(** The kind a schema reports; the decorator passes it through. *)
Fixpoint schema_kind (ts : TensorSchema Bound Tensor) : TensorKind :=
  match ts with
  | Schema kind _ => kind
  | MappedTensorSchema base _ => schema_kind base
  end.

End Vocabulary.

(** ** Example arrays *)

(** Concrete arrays and constructor arguments, with integer bounds and
    integer tensors, on which the properties below are exercised. *)

Definition int_dim (name : string) : Dim :=
  {| dim_name := name; dim_dtype := int64 |}.

(** A dense array of images: rows x height x width. *)
Definition images : Array (Z * Z) :=
  {| attrs := [ {| attr_name := "pixel"; attr_dtype := float32 |};
                {| attr_name := "label"; attr_dtype := int64 |} ];
     dims := [int_dim "rows"; int_dim "height"; int_dim "width"];
     sparse := false;
     nonempty_domain := Some [(0, 99); (0, 27); (0, 31)]%Z |}.

(** A sparse 2-dimensional array with integer dimensions. *)
Definition matrix : Array (Z * Z) :=
  {| attrs := [ {| attr_name := "value"; attr_dtype := float64 |} ];
     dims := [int_dim "row"; int_dim "col"];
     sparse := true;
     nonempty_domain := Some [(0, 9); (0, 4)]%Z |}.

(** An array in which the name [x] is both an attribute and a dimension. *)
Definition shadowed : Array (Z * Z) :=
  {| attrs := [ {| attr_name := "x"; attr_dtype := float64 |} ];
     dims := [int_dim "key"; int_dim "x"];
     sparse := false;
     nonempty_domain := Some [(0, 9); (0, 4)]%Z |}.

(** [ArrayParams(images, key_dim="width")] *)
Definition images_by_width : ArrayParams (Z * Z) :=
  {| array := images; key_dim := KeyName "width"; fields := [];
     secondary_slices := []; tensor_kind := None |}.

Definition images_by_width_kw : TensorSchemaKwargs (Z * Z) :=
  {| _array := images; _key_dim_index := 2;
     _fields := ["pixel"; "label"];
     _all_dims := ["width"; "height"; "rows"];
     _ned := [(0, 31); (0, 27); (0, 99)]%Z;
     _secondary_slices := ∅;
     _query_attrs := ["pixel"; "label"]; _query_dims := [] |}.

(** [ArrayParams(images, key_dim="width", secondary_slices={"width": 3,
    "rows": slice(0, 10), "height": [1, 2]})] *)
Definition images_cropped : ArrayParams (Z * Z) :=
  {| array := images; key_dim := KeyName "width"; fields := ["pixel"];
     secondary_slices :=
       [("width", SliceIndex 3);
        ("rows", SliceRange (Some 0%Z) (Some 10%Z) None);
        ("height", SliceIndices [1; 2]%Z)];
     tensor_kind := None |}.

Definition images_cropped_kw : TensorSchemaKwargs (Z * Z) :=
  {| _array := images; _key_dim_index := 2;
     _fields := ["pixel"];
     _all_dims := ["width"; "height"; "rows"];
     _ned := [(0, 31); (0, 27); (0, 99)]%Z;
     _secondary_slices :=
       <[1%nat := SliceIndices [1; 2]%Z]>
         (<[2%nat := SliceRange (Some 0%Z) (Some 10%Z) None]> ∅);
     _query_attrs := ["pixel"]; _query_dims := [] |}.

(** [ArrayParams(matrix, key_dim="col")] *)
Definition matrix_by_col : ArrayParams (Z * Z) :=
  {| array := matrix; key_dim := KeyName "col"; fields := [];
     secondary_slices := []; tensor_kind := None |}.

Definition matrix_by_col_kw : TensorSchemaKwargs (Z * Z) :=
  {| _array := matrix; _key_dim_index := 1;
     _fields := ["value"];
     _all_dims := ["col"; "row"];
     _ned := [(0, 4); (0, 9)]%Z;
     _secondary_slices := ∅;
     _query_attrs := ["value"]; _query_dims := [] |}.

(** [ArrayParams(matrix, secondary_slices={"col": 0})] *)
Definition matrix_cropped : ArrayParams (Z * Z) :=
  {| array := matrix; key_dim := KeyIndex 0; fields := [];
     secondary_slices := [("col", SliceIndex 0)]; tensor_kind := None |}.

Definition matrix_cropped_kw : TensorSchemaKwargs (Z * Z) :=
  {| _array := matrix; _key_dim_index := 0;
     _fields := ["value"];
     _all_dims := ["row"; "col"];
     _ned := [(0, 9); (0, 4)]%Z;
     _secondary_slices := <[1%nat := SliceIndex 0]> ∅;
     _query_attrs := ["value"]; _query_dims := [] |}.

(** [ArrayParams(matrix, secondary_slices={"row": 0})]: the only slice is on
    the key dimension. *)
Definition matrix_key_sliced : ArrayParams (Z * Z) :=
  {| array := matrix; key_dim := KeyIndex 0; fields := [];
     secondary_slices := [("row", SliceIndex 0)]; tensor_kind := None |}.

Definition matrix_key_sliced_kw : TensorSchemaKwargs (Z * Z) :=
  {| _array := matrix; _key_dim_index := 0;
     _fields := ["value"];
     _all_dims := ["row"; "col"];
     _ned := [(0, 9); (0, 4)]%Z;
     _secondary_slices := ∅;
     _query_attrs := ["value"]; _query_dims := [] |}.

(** [ArrayParams(matrix, fields=["value", "depth"])] *)
Definition matrix_bad_field : ArrayParams (Z * Z) :=
  {| array := matrix; key_dim := KeyIndex 0; fields := ["value"; "depth"];
     secondary_slices := []; tensor_kind := None |}.

(** [ArrayParams(matrix, secondary_slices={"depth": 0})] *)
Definition matrix_bad_slice : ArrayParams (Z * Z) :=
  {| array := matrix; key_dim := KeyIndex 0; fields := [];
     secondary_slices := [("depth", SliceIndex 0)]; tensor_kind := None |}.

(** [ArrayParams(matrix, key_dim=5, secondary_slices={"depth": 0})] *)
Definition matrix_bad_key_and_slice : ArrayParams (Z * Z) :=
  {| array := matrix; key_dim := KeyIndex 5; fields := [];
     secondary_slices := [("depth", SliceIndex 0)]; tensor_kind := None |}.

(** [ArrayParams(shadowed, fields=["x"])] *)
Definition shadowed_x : ArrayParams (Z * Z) :=
  {| array := shadowed; key_dim := KeyIndex 0; fields := ["x"];
     secondary_slices := []; tensor_kind := None |}.

Definition shadowed_x_kw : TensorSchemaKwargs (Z * Z) :=
  {| _array := shadowed; _key_dim_index := 0;
     _fields := ["x"];
     _all_dims := ["key"; "x"];
     _ned := [(0, 9); (0, 4)]%Z;
     _secondary_slices := ∅;
     _query_attrs := ["x"]; _query_dims := [] |}.

(** Transform tables over integer tensors. *)
Definition no_transforms : gmap TensorKind (Transform Z) := ∅.
Definition csr_off : gmap TensorKind (Transform Z) :=
  {[ SPARSE_CSR := TBool false ]}.
Definition dense_doubled : gmap TensorKind (Transform Z) :=
  {[ DENSE := TCallable (fun t => 2 * t)%Z ]}.

(** ** Further vocabulary and examples *)

(** The key selectors that resolution accepts: a name of a dimension, or an
    index that is not positive or lies below the number of dimensions. *)
Definition key_dim_accepted {Bound : Type} (a : Array Bound) (kd : KeyDim)
    : Prop :=
  match kd with
  | KeyIndex i => (i ≤ 0)%Z ∨ (i < Z.of_nat (ndim a))%Z
  | KeyName name => name ∈ dim_names a
  end.

(** The same constructor arguments with another [secondary_slices] dict. *)
Definition with_secondary_slices {Bound : Type} (p : ArrayParams Bound)
    (items : list (string * SecondarySlice)) : ArrayParams Bound :=
  {| array := array p; key_dim := key_dim p; fields := fields p;
     secondary_slices := items; tensor_kind := tensor_kind p |}.

(** The same constructor arguments with another [key_dim]. *)
Definition with_key_dim {Bound : Type} (p : ArrayParams Bound)
    (kd : KeyDim) : ArrayParams Bound :=
  {| array := array p; key_dim := kd; fields := fields p;
     secondary_slices := secondary_slices p; tensor_kind := tensor_kind p |}.

(** The sparse matrix before anything was written to it, and
    [ArrayParams(matrix_empty, key_dim="depth", secondary_slices={"col": 0})]
    on it. *)
Definition matrix_empty : Array (Z * Z) :=
  {| attrs := [ {| attr_name := "value"; attr_dtype := float64 |} ];
     dims := [int_dim "row"; int_dim "col"];
     sparse := true;
     nonempty_domain := None |}.

Definition matrix_without_data : ArrayParams (Z * Z) :=
  {| array := matrix_empty; key_dim := KeyName "depth"; fields := [];
     secondary_slices := [("col", SliceIndex 0)]; tensor_kind := None |}.

(** [ArrayParams(matrix, key_dim=-1)] *)
Definition matrix_last : ArrayParams (Z * Z) :=
  {| array := matrix; key_dim := KeyIndex (-1); fields := [];
     secondary_slices := []; tensor_kind := None |}.

Definition matrix_last_kw : TensorSchemaKwargs (Z * Z) :=
  {| _array := matrix; _key_dim_index := -1;
     _fields := ["value"];
     _all_dims := ["row"; "col"];
     _ned := [(0, 9); (0, 4)]%Z;
     _secondary_slices := ∅;
     _query_attrs := ["value"]; _query_dims := [] |}.

(** [ArrayParams(matrix, key_dim="depth", secondary_slices={"height": 0})] *)
Definition matrix_by_depth : ArrayParams (Z * Z) :=
  {| array := matrix; key_dim := KeyName "depth"; fields := [];
     secondary_slices := [("height", SliceIndex 0)]; tensor_kind := None |}.

(** [ArrayParams(images, fields=["label", "height", "pixel", "rows"])] *)
Definition images_mixed : ArrayParams (Z * Z) :=
  {| array := images; key_dim := KeyIndex 0;
     fields := ["label"; "height"; "pixel"; "rows"];
     secondary_slices := []; tensor_kind := None |}.

Definition images_mixed_kw : TensorSchemaKwargs (Z * Z) :=
  {| _array := images; _key_dim_index := 0;
     _fields := ["label"; "height"; "pixel"; "rows"];
     _all_dims := ["rows"; "height"; "width"];
     _ned := [(0, 99); (0, 27); (0, 31)]%Z;
     _secondary_slices := ∅;
     _query_attrs := ["label"; "pixel"]; _query_dims := ["height"; "rows"] |}.

(** The [secondary_slices] of [images_cropped], inserted in another order. *)
Definition images_cropped_reordered : list (string * SecondarySlice) :=
  [("height", SliceIndices [1; 2]%Z);
   ("width", SliceIndex 3);
   ("rows", SliceRange (Some 0%Z) (Some 10%Z) None)].

(** Decidable facts about the concrete examples are settled by evaluation. *)
Ltac by_evaluation := apply (bool_decide_unpack _); vm_compute; exact I.

(** * Properties *)

(** ** The list primitives *)

Lemma bind_Ok {A B : Type} (m : result A) (f : A → result B) (b : B) :
  mbind f m = Ok b → ∃ a, m = Ok a ∧ f a = Ok b.
Proof. destruct m as [a|e]; [eauto | discriminate]. Qed.

Lemma list_index_Ok (x : string) (l : list string) (i : nat) :
  list_index x l = Ok i ↔
  l !! i = Some x ∧ ∀ j, (j < i)%nat → l !! j ≠ Some x.
Proof.
  unfold list_index. split.
  - destruct (list_find (eq x) l) as [[j y]|] eqn:Hfind; [|discriminate].
    intros [= <-]. apply list_find_Some in Hfind as (Hj & <- & Hmin).
    split; [done|]. intros j' Hlt Hj'. by apply (Hmin j' x).
  - intros [Hi Hmin].
    assert (list_find (eq x) l = Some (i, x)) as ->; [|done].
    apply list_find_Some. split_and!; [done..|].
    intros j y Hj Hlt <-. by apply (Hmin j).
Qed.

Lemma list_index_Raise (x : string) (l : list string) (e : exn) :
  list_index x l = Raise e ↔
  (x ∉ l) ∧ e = ValueError (py_repr x +:+ " is not in list").
Proof.
  unfold list_index. split.
  - destruct (list_find (eq x) l) as [[j y]|] eqn:Hfind; [discriminate|].
    intros [= <-]. split; [|done].
    apply list_find_None in Hfind. rewrite Forall_forall in Hfind.
    intros Hin. by apply (Hfind x).
  - intros [Hnotin ->].
    destruct (list_find (eq x) l) as [[j y]|] eqn:Hfind; [|done].
    apply list_find_Some in Hfind as (Hj & <- & _).
    destruct Hnotin. by eapply list_elem_of_lookup_2.
Qed.

Lemma list_index_elem_of (x : string) (l : list string) :
  x ∈ l → ∃ i, list_index x l = Ok i.
Proof.
  intros Hin. destruct (list_index x l) as [i|e] eqn:Hidx; [eauto|].
  apply list_index_Raise in Hidx as [? _]. done.
Qed.

Lemma list_index_zero (x : string) (l : list string) :
  list_index x l = Ok 0%nat ↔ l !! 0%nat = Some x.
Proof.
  rewrite list_index_Ok. split; [by intros [? _]|].
  intros ?. split; [done|]. intros j ?. lia.
Qed.

Lemma list_index_NoDup (x : string) (l : list string) (i : nat) :
  NoDup l → l !! i = Some x → list_index x l = Ok i.
Proof.
  intros Hnd Hi. apply list_index_Ok. split; [done|].
  intros j Hlt Hj. pose proof (NoDup_lookup l i j x Hnd Hi Hj). lia.
Qed.

Lemma swap_position_involutive (k i : nat) :
  swap_position k (swap_position k i) = i.
Proof. unfold swap_position. repeat case_decide; lia. Qed.

Lemma py_position_nonneg {A : Type} (l : list A) (k : Z) :
  (0 ≤ k)%Z →
  py_position l k
  = if decide (Z.to_nat k < length l)%nat then Ok (Z.to_nat k)
    else Raise (IndexError (if decide (k ≤ PY_SSIZE_T_MAX)%Z
                            then index_out_of_range_msg
                            else index_too_large_msg)).
Proof.
  intros Hk. unfold py_position.
  rewrite (proj2 (Z.ltb_ge k 0)) by done.
  rewrite (proj2 (Z.leb_le 0 k)) by done. simpl.
  destruct (Z.ltb_spec k (Z.of_nat (length l))) as [Hlt|Hge].
  - rewrite decide_True by lia. done.
  - rewrite decide_False by lia.
    rewrite (proj2 (Z.ltb_ge k (- PY_SSIZE_T_MAX - 1))), orb_false_r
      by (unfold PY_SSIZE_T_MAX; lia).
    destruct (Z.ltb_spec PY_SSIZE_T_MAX k).
    + by rewrite decide_False by lia.
    + by rewrite decide_True by lia.
Qed.

(** For a non-negative subscript the exchange reads and writes positions
    [k] and [0]; it fails exactly when [k] is outside the list. *)
Lemma swap_first_nonneg {A : Type} (k : Z) (l : list A) :
  (0 ≤ k)%Z →
  swap_first k l
  = match l !! Z.to_nat k, l !! 0%nat with
    | Some xk, Some x0 => Ok (<[Z.to_nat k := x0]> (<[0%nat := xk]> l))
    | _, _ => Raise (IndexError (if decide (k ≤ PY_SSIZE_T_MAX)%Z
                                 then index_out_of_range_msg
                                 else index_too_large_msg))
    end.
Proof.
  intros Hk. unfold swap_first.
  rewrite (py_position_nonneg l k Hk), (py_position_nonneg l 0) by lia.
  change (Z.to_nat 0) with 0%nat.
  destruct (decide (Z.to_nat k < length l)%nat) as [Hlt|Hge]; simpl.
  - rewrite decide_True by lia. simpl.
    destruct (lookup_lt_is_Some_2 l (Z.to_nat k) Hlt) as [xk ->].
    destruct (lookup_lt_is_Some_2 l 0) as [x0 ->]; [lia|]. done.
  - by rewrite (proj2 (lookup_ge_None l (Z.to_nat k))) by lia.
Qed.

Lemma swap_first_Ok {A : Type} (k : Z) (l l' : list A) :
  (0 ≤ k)%Z →
  swap_first k l = Ok l' →
  (Z.to_nat k < length l)%nat ∧ length l' = length l ∧
  ∀ i, l' !! i = l !! swap_position (Z.to_nat k) i.
Proof.
  intros Hnonneg. rewrite swap_first_nonneg by done.
  destruct (l !! Z.to_nat k) as [xk|] eqn:Hk; [|discriminate].
  destruct (l !! 0%nat) as [x0|] eqn:H0; [|discriminate].
  intros [= <-].
  pose proof (lookup_lt_Some _ _ _ Hk) as Hlt.
  pose proof (lookup_lt_Some _ _ _ H0) as Hlt0.
  split; [done|]. split; [by rewrite !length_insert|].
  intros i. unfold swap_position.
  rewrite !list_lookup_insert, !length_insert.
  repeat case_decide; destruct_and?; subst; try done; try lia; congruence.
Qed.

Lemma swap_first_Raise {A : Type} (k : Z) (l : list A) (e : exn) :
  (0 ≤ k)%Z →
  swap_first k l = Raise e →
  (length l ≤ Z.to_nat k)%nat ∧
  e = IndexError (if decide (k ≤ PY_SSIZE_T_MAX)%Z
                  then index_out_of_range_msg else index_too_large_msg).
Proof.
  intros Hnonneg. rewrite swap_first_nonneg by done.
  destruct (l !! Z.to_nat k) as [xk|] eqn:Hk.
  - destruct (l !! 0%nat) as [x0|] eqn:H0; [discriminate|].
    apply lookup_ge_None in H0. apply lookup_lt_Some in Hk. lia.
  - intros [= <-]. by apply lookup_ge_None in Hk.
Qed.

(** ** Field classification *)

Lemma py_in_true (x : string) (l : list string) : py_in x l = true ↔ x ∈ l.
Proof. unfold py_in. apply bool_decide_eq_true. Qed.

Lemma py_in_false (x : string) (l : list string) : py_in x l = false ↔ x ∉ l.
Proof. unfold py_in. apply bool_decide_eq_false. Qed.

Lemma classify_fields_Ok (A D fs a d a' d' : list string) :
  classify_fields A D fs a d = Ok (a', d') ↔
  Forall (fun f => f ∈ A ∨ f ∈ D) fs ∧
  a' = a ++ filter (fun f => f ∈ A) fs ∧
  d' = d ++ filter (fun f => (f ∉ A) ∧ f ∈ D) fs.
Proof.
  revert a d. induction fs as [|f fs IH]; intros a d; simpl.
  - rewrite !filter_nil, !app_nil_r. split.
    + intros [= -> ->]. by split_and!.
    + intros (_ & -> & ->). done.
  - rewrite !filter_cons, Forall_cons.
    destruct (py_in f A) eqn:HA.
    + apply py_in_true in HA. rewrite IH, <- !app_assoc.
      rewrite decide_True by done.
      rewrite decide_False by (intros [? ?]; done). simpl. tauto.
    + apply py_in_false in HA. destruct (py_in f D) eqn:HD.
      * apply py_in_true in HD. rewrite IH, <- !app_assoc.
        rewrite decide_False by done. rewrite decide_True by done.
        simpl. tauto.
      * apply py_in_false in HD. split; [discriminate|].
        intros ([[?|?] _] & _); done.
Qed.

Lemma classify_fields_Raise (A D fs a d : list string) (e : exn) :
  classify_fields A D fs a d = Raise e ↔
  ∃ pre g post, fs = pre ++ g :: post ∧
    Forall (fun f => f ∈ A ∨ f ∈ D) pre ∧ (g ∉ A) ∧ (g ∉ D) ∧
    e = ValueError (unknown_field_msg g).
Proof.
  revert a d. induction fs as [|f fs IH]; intros a d; simpl.
  - split; [discriminate|]. intros (pre & g & post & Heq & _).
    by destruct pre.
  - destruct (py_in f A) eqn:HA; [|destruct (py_in f D) eqn:HD].
    + apply py_in_true in HA. rewrite IH. split.
      * intros (pre & g & post & -> & Hpre & ?).
        exists (f :: pre), g, post. split; [done|].
        split; [constructor; auto|done].
      * intros (pre & g & post & Heq & Hpre & HgA & HgD & ->).
        destruct pre as [|f' pre]; simplify_eq/=; [done|].
        apply Forall_cons in Hpre as [_ Hpre].
        exists pre, g, post. by split_and!.
    + apply py_in_true in HD. rewrite IH. split.
      * intros (pre & g & post & -> & Hpre & ?).
        exists (f :: pre), g, post. split; [done|].
        split; [constructor; auto|done].
      * intros (pre & g & post & Heq & Hpre & HgA & HgD & ->).
        destruct pre as [|f' pre]; simplify_eq/=; [done|].
        apply Forall_cons in Hpre as [_ Hpre].
        exists pre, g, post. by split_and!.
    + apply py_in_false in HA, HD. split.
      * intros [= <-]. exists [], f, fs. by split_and!.
      * intros (pre & g & post & Heq & Hpre & HgA & HgD & ->).
        destruct pre as [|f' pre]; simplify_eq/=; [done|].
        apply Forall_cons in Hpre as [[?|?] _]; done.
Qed.

Lemma resolve_fields_Ok (A D fs ff a d : list string) :
  resolve_fields A D fs = Ok (ff, a, d) ↔
  (fs = [] ∧ ff = A ∧ a = A ∧ d = []) ∨
  (fs ≠ [] ∧ ff = fs ∧ Forall (fun f => f ∈ A ∨ f ∈ D) fs ∧
   a = filter (fun f => f ∈ A) fs ∧
   d = filter (fun f => (f ∉ A) ∧ f ∈ D) fs).
Proof.
  unfold resolve_fields. destruct fs as [|f fs].
  - split; [intros [= <- <- <-]; by left|].
    intros [(_ & -> & -> & ->)|(? & _)]; done.
  - destruct (classify_fields A D (f :: fs) [] []) as [[a0 d0]|e] eqn:Hc;
      simpl.
    + apply classify_fields_Ok in Hc as (Hall & -> & ->). simpl. split.
      * intros [= <- <- <-]. right. by split_and!.
      * intros [(? & _)|(_ & -> & _ & -> & ->)]; done.
    + split; [discriminate|]. intros [(? & _)|(_ & _ & Hall & _)]; [done|].
      apply classify_fields_Raise in Hc
        as (pre & g & post & Heq & _ & HgA & HgD & _).
      rewrite Heq, Forall_app, Forall_cons in Hall.
      destruct Hall as (_ & [?|?] & _); done.
Qed.

Lemma resolve_fields_Raise (A D fs : list string) (e : exn) :
  resolve_fields A D fs = Raise e ↔
  ∃ pre g post, fs = pre ++ g :: post ∧
    Forall (fun f => f ∈ A ∨ f ∈ D) pre ∧ (g ∉ A) ∧ (g ∉ D) ∧
    e = ValueError (unknown_field_msg g).
Proof.
  unfold resolve_fields. destruct fs as [|f fs].
  - split; [discriminate|]. intros (pre & g & post & Heq & _).
    by destruct pre.
  - rewrite <- (classify_fields_Raise A D (f :: fs) [] []).
    destruct (classify_fields A D (f :: fs) [] []) as [[a0 d0]|e0];
      simpl; split; congruence.
Qed.

(** ** The secondary-slice loop *)

Lemma resolve_secondary_slices_keep (all_dims : list string)
    (items : list (string * SecondarySlice))
    (acc m : gmap nat SecondarySlice) (i : nat) :
  resolve_secondary_slices all_dims items acc = Ok m →
  (∀ d s, (d, s) ∈ items → list_index d all_dims ≠ Ok i) →
  m !! i = acc !! i.
Proof.
  revert acc. induction items as [|[d s] items IH]; intros acc; simpl.
  - by intros [= ->].
  - intros Hrun Hnot. apply bind_Ok in Hrun as (j & Hj & Hrun).
    rewrite (IH _ Hrun).
    + case_decide; [|done]. apply lookup_insert_ne. intros ->.
      apply (Hnot d s); [apply elem_of_cons; by left|done].
    + intros d' s' Hin. apply (Hnot d' s'). apply elem_of_cons. by right.
Qed.

Lemma resolve_secondary_slices_zero (all_dims : list string)
    (items : list (string * SecondarySlice))
    (acc m : gmap nat SecondarySlice) :
  resolve_secondary_slices all_dims items acc = Ok m →
  m !! 0%nat = acc !! 0%nat.
Proof.
  revert acc. induction items as [|[d s] items IH]; intros acc; simpl.
  - by intros [= ->].
  - intros Hrun. apply bind_Ok in Hrun as (j & Hj & Hrun).
    rewrite (IH _ Hrun). case_decide; [|done].
    apply lookup_insert_ne. lia.
Qed.

Lemma resolve_secondary_slices_origin (all_dims : list string)
    (items : list (string * SecondarySlice))
    (acc m : gmap nat SecondarySlice) (i : nat) (s : SecondarySlice) :
  resolve_secondary_slices all_dims items acc = Ok m →
  m !! i = Some s →
  acc !! i = Some s ∨
  ((0 < i)%nat ∧ ∃ d, (d, s) ∈ items ∧ list_index d all_dims = Ok i).
Proof.
  revert acc. induction items as [|[d0 s0] items IH]; intros acc; simpl.
  - intros [= ->]. by left.
  - intros Hrun Hm. apply bind_Ok in Hrun as (j & Hj & Hrun).
    destruct (IH _ Hrun Hm) as [Hacc|(Hpos & d & Hin & Hd)].
    + case_decide as Hjpos; [|by left].
      apply lookup_insert_Some in Hacc as [[<- <-]|[_ Hacc]]; [|by left].
      right. split; [done|]. exists d0.
      split; [apply elem_of_cons; by left|done].
    + right. split; [done|]. exists d.
      split; [apply elem_of_cons; by right|done].
Qed.

Lemma resolve_secondary_slices_kept (all_dims : list string)
    (items : list (string * SecondarySlice))
    (acc m : gmap nat SecondarySlice)
    (d : string) (s : SecondarySlice) (i : nat) :
  NoDup items.*1 →
  resolve_secondary_slices all_dims items acc = Ok m →
  (d, s) ∈ items → list_index d all_dims = Ok i → (0 < i)%nat →
  m !! i = Some s.
Proof.
  revert acc. induction items as [|[d0 s0] items IH]; intros acc; simpl.
  - intros _ _ Hin. by apply elem_of_nil in Hin.
  - intros Hnd Hrun Hin Hd Hpos.
    apply NoDup_cons in Hnd as [Hfresh Hnd].
    apply bind_Ok in Hrun as (j & Hj & Hrun).
    apply elem_of_cons in Hin as [[= <- <-]|Hin].
    + assert (j = i) as -> by congruence.
      rewrite (resolve_secondary_slices_keep _ _ _ _ i Hrun).
      * rewrite decide_True by done. apply lookup_insert_eq.
      * intros d' s' Hin' Hd'. apply Hfresh.
        apply list_index_Ok in Hd as [Hd _].
        apply list_index_Ok in Hd' as [Hd' _].
        assert (d' = d) as -> by congruence.
        apply list_elem_of_fmap. by exists (d, s').
    + by apply (IH _ Hnd Hrun).
Qed.

Lemma resolve_secondary_slices_Ok_known (all_dims : list string)
    (items : list (string * SecondarySlice))
    (acc m : gmap nat SecondarySlice) :
  resolve_secondary_slices all_dims items acc = Ok m →
  Forall (fun it => it.1 ∈ all_dims) items.
Proof.
  revert acc. induction items as [|[d0 s0] items IH]; intros acc; simpl.
  - constructor.
  - intros Hrun. apply bind_Ok in Hrun as (j & Hj & Hrun).
    constructor; [|by eapply IH].
    apply list_index_Ok in Hj as [Hj _]. by eapply list_elem_of_lookup_2.
Qed.

Lemma resolve_secondary_slices_Raise (all_dims : list string)
    (items : list (string * SecondarySlice))
    (acc : gmap nat SecondarySlice) (e : exn) :
  resolve_secondary_slices all_dims items acc = Raise e ↔
  ∃ pre d s post, items = pre ++ (d, s) :: post ∧
    Forall (fun it => it.1 ∈ all_dims) pre ∧ (d ∉ all_dims) ∧
    e = ValueError (not_in_list_msg d).
Proof.
  revert acc. induction items as [|[d0 s0] items IH]; intros acc; simpl.
  - split; [discriminate|]. intros (pre & d & s & post & Heq & _).
    by destruct pre.
  - destruct (list_index d0 all_dims) as [j|e0] eqn:Hj; simpl.
    + assert (d0 ∈ all_dims) as Hd0.
      { apply list_index_Ok in Hj as [Hj _].
        by eapply list_elem_of_lookup_2. }
      rewrite IH. split.
      * intros (pre & d & s & post & -> & Hpre & ?).
        exists ((d0, s0) :: pre), d, s, post. split; [done|].
        split; [by constructor|done].
      * intros (pre & d & s & post & Heq & Hpre & Hd & ->).
        destruct pre as [|it pre]; simplify_eq/=; [done|].
        apply Forall_cons in Hpre as [_ Hpre].
        exists pre, d, s, post. by split_and!.
    + apply list_index_Raise in Hj as [Hd0 ->]. split.
      * intros [= <-]. exists [], d0, s0, items. by split_and!.
      * intros (pre & d & s & post & Heq & Hpre & Hd & ->).
        destruct pre as [|it pre]; simplify_eq/=; [done|].
        by apply Forall_cons in Hpre as [? _].
Qed.

(** ** Resolution *)

Section Properties.

Context {Bound Tensor : Type}.
Implicit Types (a : Array Bound) (p : ArrayParams Bound).
Implicit Types (kw : TensorSchemaKwargs Bound).
Implicit Types (transforms : gmap TensorKind (Transform Tensor)).

Lemma swap_position_zero (i : nat) : swap_position 0 i = i.
Proof. unfold swap_position. repeat case_decide; lia. Qed.

Lemma swap_key_dim_Ok (k : Z) (names names' : list string)
    (ned ned' : list Bound) :
  swap_key_dim k names ned = Ok (names', ned') →
  length names' = length names ∧ length ned' = length ned ∧
  ((0 < k)%Z → (Z.to_nat k < length names)%nat) ∧
  ∀ i, names' !! i = names !! swap_position (Z.to_nat k) i ∧
       ned' !! i = ned !! swap_position (Z.to_nat k) i.
Proof.
  unfold swap_key_dim. destruct (0 <? k)%Z eqn:Hk.
  - intros Hrun. apply bind_Ok in Hrun as (n1 & Hn & Hrun).
    apply bind_Ok in Hrun as (d1 & Hd & [= <- <-]).
    apply Z.ltb_lt in Hk.
    apply swap_first_Ok in Hn as (? & ? & ?); [|lia].
    apply swap_first_Ok in Hd as (? & ? & ?); [|lia].
    by split_and!.
  - intros [= <- <-]. apply Z.ltb_ge in Hk.
    replace (Z.to_nat k) with 0%nat by lia.
    split_and!; [done|done|lia|]. intros i.
    by rewrite swap_position_zero.
Qed.

Lemma post_init_Ok p kw :
  __post_init__ p = Ok kw →
  resolve_fields (attr_names (array p)) (dim_names (array p)) (fields p)
    = Ok (_fields kw, _query_attrs kw, _query_dims kw) ∧
  resolve_key_dim_index (dim_names (array p)) (key_dim p)
    = Ok (_key_dim_index kw) ∧
  (∃ ned, nonempty_domain (array p) = Some ned ∧
     swap_key_dim (_key_dim_index kw) (dim_names (array p)) ned
       = Ok (_all_dims kw, _ned kw)) ∧
  resolve_secondary_slices (_all_dims kw) (secondary_slices p) ∅
    = Ok (_secondary_slices kw) ∧
  _array kw = array p.
Proof.
  unfold __post_init__. intros Hrun.
  apply bind_Ok in Hrun as ([[ff at_] dm] & Hf & Hrun).
  apply bind_Ok in Hrun as (ned & Hned & Hrun).
  destruct (nonempty_domain (array p)) as [ned0|] eqn:Hdom; [|discriminate].
  injection Hned as ->.
  apply bind_Ok in Hrun as (k & Hk & Hrun).
  apply bind_Ok in Hrun as ([names' ned'] & Hs & Hrun).
  apply bind_Ok in Hrun as (m & Hm & [= <-]). simpl.
  split_and!; [done..| |done|done]. by exists ned.
Qed.

Lemma key_dim_position_resolved a (kd : KeyDim) (k : Z) (j : nat) :
  resolve_key_dim_index (dim_names a) kd = Ok k →
  key_dim_position a kd = Some j →
  Z.to_nat k = j ∧ (j < length (dim_names a))%nat.
Proof.
  destruct kd as [i|name]; simpl.
  - intros [= <-]. case_decide as Hi; [|discriminate]. intros [= <-].
    unfold dim_names. rewrite length_fmap. unfold ndim in Hi. lia.
  - intros Hrun. apply bind_Ok in Hrun as (i & Hi & [= <-]).
    unfold list_index in Hi.
    destruct (list_find (eq name) (dim_names a)) as [[i' y]|] eqn:Hfind;
      [|discriminate].
    injection Hi as ->. simpl. intros [= <-].
    apply list_find_Some in Hfind as (Hi & _).
    apply lookup_lt_Some in Hi. split; [lia|done].
Qed.

Lemma resolved_lookup p kw (k : nat) :
  __post_init__ p = Ok kw →
  key_dim_position (array p) (key_dim p) = Some k →
  (k < length (dim_names (array p)))%nat ∧
  length (_all_dims kw) = length (dim_names (array p)) ∧
  ∃ ned, nonempty_domain (array p) = Some ned ∧
  ∀ i, _all_dims kw !! i = dim_names (array p) !! swap_position k i ∧
       _ned kw !! i = ned !! swap_position k i.
Proof.
  intros Hinit Hkey.
  apply post_init_Ok in Hinit as (_ & Hk & (ned & Hned & Hswap) & _).
  destruct (key_dim_position_resolved _ _ _ _ Hk Hkey) as [Hj Hlt].
  apply swap_key_dim_Ok in Hswap as (Hlen & _ & _ & Hlook).
  rewrite Hj in Hlook. split_and!; [done..|]. by exists ned.
Qed.

(** The key dimension is the one at position [0] of the resolved order. *)
Lemma resolved_key_first p kw (k : nat) :
  __post_init__ p = Ok kw →
  key_dim_position (array p) (key_dim p) = Some k →
  ∃ d, dim_names (array p) !! k = Some d ∧ _all_dims kw !! 0%nat = Some d.
Proof.
  intros Hinit Hkey.
  destruct (resolved_lookup _ _ _ Hinit Hkey)
    as (Hlt & _ & ned0 & Hned0 & Hlook).
  destruct (lookup_lt_is_Some_2 _ _ Hlt) as [d Hd].
  exists d. split; [done|].
  destruct (Hlook 0%nat) as [-> _]. by rewrite <- Hd.
Qed.

(** C1 (as amended): when resolution succeeds the key dimension is at
    position 0 of the resolved dimension order; the resolved order is the
    array's order with positions 0 and [k] exchanged, where [k] is the key
    dimension's original position, so that every dimension other than the
    key and the originally first one keeps its place; the non-empty-domain
    bounds are reordered by the same exchange.  The remaining dimensions
    keep their relative order when [k ≤ 1], and, their names being
    distinct, only then. *)
Theorem key_dim_swapped_to_front p kw (k : nat) :
  __post_init__ p = Ok kw →
  key_dim_position (array p) (key_dim p) = Some k →
  _all_dims kw !! 0%nat = dim_names (array p) !! k ∧
  is_Some (dim_names (array p) !! k) ∧
  (∀ i, _all_dims kw !! i = dim_names (array p) !! swap_position k i) ∧
  (∃ ned, nonempty_domain (array p) = Some ned ∧
     ∀ i, _ned kw !! i = ned !! swap_position k i) ∧
  ((k ≤ 1)%nat → drop 1 (_all_dims kw) = delete k (dim_names (array p))) ∧
  (NoDup (dim_names (array p)) →
   drop 1 (_all_dims kw) = delete k (dim_names (array p)) → (k ≤ 1)%nat).
Proof.
  intros Hinit Hkey.
  destruct (resolved_lookup _ _ _ Hinit Hkey)
    as (Hlt & Hlen & ned0 & Hned0 & Hlook).
  split_and!.
  - by destruct (Hlook 0%nat) as [-> _].
  - by apply lookup_lt_is_Some_2.
  - intros i. by destruct (Hlook i).
  - exists ned0. split; [done|]. intros i. by destruct (Hlook i).
  - intros Hk. apply list_eq. intros i.
    rewrite lookup_drop. destruct (Hlook (1 + i)%nat) as [-> _].
    rewrite list_lookup_delete. unfold swap_position.
    repeat case_decide; try lia; f_equal; lia.
  - intros Hnd Heq.
    destruct (decide (k ≤ 1)%nat) as [|Hbig]; [done|]. exfalso.
    assert (drop 1 (_all_dims kw) !! 0%nat
            = delete k (dim_names (array p)) !! 0%nat) as H0 by by rewrite Heq.
    rewrite lookup_drop in H0. destruct (Hlook (1 + 0)%nat) as [H1 _].
    rewrite H1 in H0. rewrite list_lookup_delete_lt in H0 by lia.
    unfold swap_position in H0.
    rewrite decide_False in H0 by lia. rewrite decide_False in H0 by lia.
    destruct (lookup_lt_is_Some_2 (dim_names (array p)) 0) as [x Hx]; [lia|].
    rewrite Hx in H0.
    pose proof (NoDup_lookup _ _ _ _ Hnd H0 Hx). lia.
Qed.

(** ** Tensor-kind inference *)

Lemma dim_by_name_elem_of a (n : string) :
  n ∈ dim_names a →
  ∃ d, dim_by_name a n = Ok d ∧ d ∈ dims a ∧ dim_name d = n.
Proof.
  intros Hin. unfold dim_names in Hin.
  apply list_elem_of_fmap in Hin as (d0 & -> & Hd0).
  unfold dim_by_name.
  destruct (list_find_elem_of (fun d => dim_name d = dim_name d0)
              (dims a) d0 Hd0 eq_refl) as [[i d] Hfind].
  rewrite Hfind. apply list_find_Some in Hfind as (Hi & Hname & _).
  exists d. split_and!; [done| |done]. by eapply list_elem_of_lookup_2.
Qed.

Lemma dim_by_name_NoDup a (i : nat) (d : Dim) :
  NoDup (dim_names a) → dims a !! i = Some d →
  dim_by_name a (dim_name d) = Ok d.
Proof.
  intros Hnd Hi. unfold dim_by_name.
  assert (list_find (fun d' => dim_name d' = dim_name d) (dims a)
          = Some (i, d)) as ->; [|done].
  apply list_find_Some. split_and!; [done..|].
  intros j y Hj Hlt Heq.
  assert (dim_names a !! i = Some (dim_name d)) as Hi'.
  { unfold dim_names. by rewrite list_lookup_fmap, Hi. }
  assert (dim_names a !! j = Some (dim_name d)) as Hj'.
  { unfold dim_names. by rewrite list_lookup_fmap, Hj, <- Heq. }
  pose proof (NoDup_lookup _ _ _ _ Hnd Hi' Hj'). lia.
Qed.

(** The generator under [all] always produces an answer on names of the
    array's dimensions, and the answer is [False] exactly when one of the
    names leads to a non-integer dimension. *)
Lemma all_integer_dims_spec a (names : list string) :
  Forall (fun n => n ∈ dim_names a) names →
  ∃ b, all_integer_dims a names = Ok b ∧
    (b = false ↔
     ∃ n d, n ∈ names ∧ dim_by_name a n = Ok d ∧
            is_integer_dtype (dim_dtype d) = false).
Proof.
  induction names as [|n names IH]; intros Hall; simpl.
  - exists true. split; [done|]. split; [discriminate|].
    intros (n & d & Hin & _). by apply elem_of_nil in Hin.
  - apply Forall_cons in Hall as [Hn Hall].
    destruct (dim_by_name_elem_of _ _ Hn) as (d & Hd & _ & _).
    rewrite Hd. simpl.
    destruct (is_integer_dtype (dim_dtype d)) eqn:Hint.
    + destruct (IH Hall) as (b & Hb & Hiff). exists b. split; [done|].
      rewrite Hiff. split.
      * intros (n' & d' & Hin & ?). exists n', d'.
        split; [apply elem_of_cons; by right|done].
      * intros (n' & d' & Hin & Hd' & Hint').
        apply elem_of_cons in Hin as [->|Hin]; [congruence|].
        by exists n', d'.
    + exists false. split; [done|]. split; [|done]. intros _.
      exists n, d. split; [apply elem_of_cons; by left|done].
Qed.

Lemma has_non_integer_dim_true (ds : list Dim) :
  has_non_integer_dim ds = true ↔
  ∃ d, d ∈ ds ∧ is_integer_dtype (dim_dtype d) = false.
Proof.
  unfold has_non_integer_dim. rewrite existsb_exists. split.
  - intros (d & Hin & Hd). exists d. rewrite list_elem_of_In.
    split; [done|]. by apply negb_true_iff.
  - intros (d & Hin & Hd). exists d. rewrite <- list_elem_of_In.
    split; [done|]. by apply negb_true_iff.
Qed.

Lemma elem_of_delete {A : Type} (l : list A) (k : nat) (x : A) :
  x ∈ delete k l ↔ ∃ j, j ≠ k ∧ l !! j = Some x.
Proof.
  rewrite list_elem_of_lookup. split.
  - intros [i Hi]. rewrite list_lookup_delete in Hi.
    case_decide; [exists i|exists (S i)]; split; (lia || done).
  - intros (j & Hne & Hj). destruct (decide (j < k)%nat).
    + exists j. by rewrite list_lookup_delete_lt.
    + exists (j - 1)%nat. rewrite list_lookup_delete_ge by lia.
      by replace (S (j - 1)) with j by lia.
Qed.

Lemma csr_disabled_get transforms :
  negb (truthy (transforms_get transforms SPARSE_CSR))
  = csr_disabled transforms.
Proof.
  unfold transforms_get, csr_disabled.
  by destruct (transforms !! SPARSE_CSR) as [[[]|]|].
Qed.

(** On a constructed instance the inference never raises. *)
Lemma choose_tensor_kind_total p kw transforms :
  __post_init__ p = Ok kw →
  ∃ kind, choose_tensor_kind p kw transforms = Ok kind.
Proof.
  intros Hinit. unfold choose_tensor_kind.
  destruct (tensor_kind p) as [kind|]; [eauto|].
  destruct (negb (sparse (array p))); [eauto|].
  apply post_init_Ok in Hinit as (_ & _ & (ned0 & Hned0 & Hswap) & _).
  apply swap_key_dim_Ok in Hswap as (_ & _ & _ & Hlook).
  destruct (all_integer_dims_spec (array p) (drop 1 (_all_dims kw)))
    as (b & -> & _).
  - apply Forall_forall. intros n Hn.
    apply list_elem_of_lookup in Hn as [i Hi]. rewrite lookup_drop in Hi.
    destruct (Hlook (1 + i)%nat) as [Hi' _]. rewrite Hi' in Hi.
    by eapply list_elem_of_lookup_2.
  - simpl. destruct (negb b); [eauto|].
    destruct (_ || _); eauto.
Qed.

Lemma swap_position_ne_key (k i : nat) : swap_position k (S i) ≠ k.
Proof. unfold swap_position. repeat case_decide; lia. Qed.

Lemma swap_position_pos (k j : nat) :
  j ≠ k → ∃ i, swap_position k j = S i.
Proof.
  intros Hne. unfold swap_position.
  repeat case_decide; try lia.
  - exists (k - 1)%nat. lia.
  - exists (j - 1)%nat. lia.
Qed.

(** With distinct dimension names, the dimensions behind the resolved names
    at positions 1 and up are the array's dimensions other than the key. *)
Lemma non_key_dims_non_integer p kw (k : nat) :
  __post_init__ p = Ok kw →
  NoDup (dim_names (array p)) →
  key_dim_position (array p) (key_dim p) = Some k →
  (∃ n d, n ∈ drop 1 (_all_dims kw) ∧ dim_by_name (array p) n = Ok d ∧
          is_integer_dtype (dim_dtype d) = false) ↔
  has_non_integer_dim (delete k (dims (array p))) = true.
Proof.
  intros Hinit Hnd Hkey.
  destruct (resolved_lookup _ _ _ Hinit Hkey)
    as (Hlt & Hlen & ned0 & Hned0 & Hlook).
  rewrite has_non_integer_dim_true. split.
  - intros (n & d & Hin & Hd & Hint).
    apply list_elem_of_lookup in Hin as [i Hi]. rewrite lookup_drop in Hi.
    destruct (Hlook (1 + i)%nat) as [Hi' _]. rewrite Hi' in Hi. simpl in Hi.
    unfold dim_names in Hi. rewrite list_lookup_fmap in Hi.
    apply fmap_Some in Hi as (d' & Hd' & ->).
    rewrite (dim_by_name_NoDup _ _ _ Hnd Hd') in Hd. injection Hd as <-.
    exists d'. split; [|done]. apply elem_of_delete.
    exists (swap_position k (S i)). split; [|done].
    apply swap_position_ne_key.
  - intros (d & Hin & Hint). apply elem_of_delete in Hin as (j & Hne & Hj).
    destruct (swap_position_pos k j Hne) as [i Hi].
    exists (dim_name d), d. split_and!; [| |done].
    + apply list_elem_of_lookup. exists i. rewrite lookup_drop.
      destruct (Hlook (1 + i)%nat) as [-> _]. simpl. rewrite <- Hi.
      rewrite swap_position_involutive. unfold dim_names.
      by rewrite list_lookup_fmap, Hj.
    + by eapply dim_by_name_NoDup.
Qed.

Lemma to_tensor_schema_kind p kw transforms (kind : TensorKind)
    (ts : TensorSchema Bound Tensor) :
  choose_tensor_kind p kw transforms = Ok kind →
  to_tensor_schema p kw transforms = Ok ts →
  schema_kind ts = kind.
Proof.
  unfold to_tensor_schema. intros ->. simpl.
  destruct (_ && _); [discriminate|].
  destruct (negb _); [discriminate|].
  destruct (transforms_get transforms kind) as [[]|f]; by intros [= <-].
Qed.

(** C2: on a constructed instance, a pinned kind is the kind
    [to_tensor_schema] binds, whatever the array and the transform table
    are.  Without a pinned kind, on an array whose dimension names are
    distinct and with a key selector that designates a dimension, the kind
    bound is DENSE when the array is dense, else RAGGED when some dimension
    other than the key has a non-integer dtype, else SPARSE_COO when the
    array is not 2-dimensional or the transform table maps SPARSE_CSR to
    [False], else SPARSE_CSR.  A schema that is returned is of the kind
    bound. *)
Theorem tensor_kind_selection p kw transforms :
  __post_init__ p = Ok kw →
  (∀ kind, tensor_kind p = Some kind →
     choose_tensor_kind p kw transforms = Ok kind) ∧
  (∀ k, NoDup (dim_names (array p)) →
     key_dim_position (array p) (key_dim p) = Some k →
     tensor_kind p = None →
     choose_tensor_kind p kw transforms
       = Ok (if negb (sparse (array p)) then DENSE
             else if has_non_integer_dim (delete k (dims (array p)))
             then RAGGED
             else if bool_decide (ndim (array p) ≠ 2%nat)
                     || csr_disabled transforms
             then SPARSE_COO
             else SPARSE_CSR)) ∧
  (∀ k, NoDup (dim_names (array p)) →
     key_dim_position (array p) (key_dim p) = Some k →
     choose_tensor_kind p kw transforms
       = Ok (spec_tensor_kind p k transforms) ∧
     ∀ ts, to_tensor_schema p kw transforms = Ok ts →
           schema_kind ts = spec_tensor_kind p k transforms).
Proof.
  intros Hinit.
  assert (∀ k, NoDup (dim_names (array p)) →
     key_dim_position (array p) (key_dim p) = Some k →
     choose_tensor_kind p kw transforms
       = Ok (spec_tensor_kind p k transforms)) as Hchoose.
  { intros k Hnd Hkey. unfold choose_tensor_kind, spec_tensor_kind.
    destruct (tensor_kind p) as [kind|]; [done|].
    destruct (negb (sparse (array p))); [done|].
    pose proof (non_key_dims_non_integer _ _ _ Hinit Hnd Hkey) as Hiff.
    destruct (all_integer_dims_spec (array p) (drop 1 (_all_dims kw)))
      as (b & -> & Hb).
    { destruct (resolved_lookup _ _ _ Hinit Hkey)
        as (_ & _ & ned0 & Hned0 & Hlook).
      apply Forall_forall. intros n Hn.
      apply list_elem_of_lookup in Hn as [i Hi]. rewrite lookup_drop in Hi.
      destruct (Hlook (1 + i)%nat) as [Hi' _]. rewrite Hi' in Hi.
      by eapply list_elem_of_lookup_2. }
    simpl. rewrite Hiff in Hb.
    assert (negb b = has_non_integer_dim (delete k (dims (array p)))) as ->.
    { destruct b, (has_non_integer_dim _); simpl; try done;
        destruct Hb as [H1 H2];
        [by specialize (H2 eq_refl)|by specialize (H1 eq_refl)]. }
    destruct (has_non_integer_dim _); [done|].
    rewrite csr_disabled_get.
    assert (negb (ndim (array p) =? 2)%nat
            = bool_decide (ndim (array p) ≠ 2%nat)) as ->;
      [|by destruct (_ || _)].
    destruct (Nat.eqb_spec (ndim (array p)) 2); simpl.
    - by rewrite bool_decide_eq_false_2 by auto.
    - by rewrite bool_decide_eq_true_2. }
  split_and!.
  - intros kind Hpin. unfold choose_tensor_kind. by rewrite Hpin.
  - intros k Hnd Hkey Hnone. rewrite (Hchoose k Hnd Hkey).
    unfold spec_tensor_kind. by rewrite Hnone.
  - intros k Hnd Hkey. split; [by apply Hchoose|].
    intros ts. apply to_tensor_schema_kind. by apply Hchoose.
Qed.

(** ** Failure of resolution *)

Lemma resolve_key_dim_index_Raise (names : list string) (kd : KeyDim)
    (e : exn) :
  resolve_key_dim_index names kd = Raise e →
  ∃ name, kd = KeyName name ∧ (name ∉ names) ∧
          e = ValueError (not_in_list_msg name).
Proof.
  destruct kd as [i|name]; simpl; [discriminate|].
  destruct (list_index name names) as [i|e0] eqn:Hidx; simpl; [discriminate|].
  intros [= <-]. apply list_index_Raise in Hidx as [? ->]. by exists name.
Qed.

Lemma swap_key_dim_Raise (k : Z) (names : list string) (ned : list Bound)
    (e : exn) :
  swap_key_dim k names ned = Raise e →
  e = IndexError (if decide (k ≤ PY_SSIZE_T_MAX)%Z
                  then index_out_of_range_msg else index_too_large_msg) ∧
  (0 < k)%Z ∧
  (length names ≤ Z.to_nat k ∨ length ned ≤ Z.to_nat k)%nat.
Proof.
  unfold swap_key_dim. destruct (0 <? k)%Z eqn:Hk; [|discriminate].
  apply Z.ltb_lt in Hk.
  destruct (swap_first k names) as [n1|e1] eqn:Hn; simpl.
  - destruct (swap_first k ned) as [d1|e2] eqn:Hd; simpl;
      [discriminate|].
    intros [= <-]. apply swap_first_Raise in Hd as [? ->]; [auto|lia].
  - intros [= <-]. apply swap_first_Raise in Hn as [? ->]; [auto|lia].
Qed.

Lemma swap_key_dim_total (k : nat) (names : list string) (ned : list Bound) :
  (k < length names)%nat → (k < length ned)%nat →
  ∃ names' ned', swap_key_dim (Z.of_nat k) names ned = Ok (names', ned').
Proof.
  intros Hn Hd.
  destruct (swap_key_dim (Z.of_nat k) names ned) as [[n' d']|e] eqn:Hs;
    [eauto|].
  apply swap_key_dim_Raise in Hs as (_ & _ & Hge). lia.
Qed.

Lemma key_dim_position_Some a (kd : KeyDim) (k : nat) :
  key_dim_position a kd = Some k →
  resolve_key_dim_index (dim_names a) kd = Ok (Z.of_nat k) ∧
  (k < length (dim_names a))%nat.
Proof.
  destruct kd as [i|name]; simpl.
  - case_decide as Hi; [|discriminate]. intros [= <-].
    unfold dim_names. rewrite length_fmap. unfold ndim in Hi.
    split; [f_equal|]; lia.
  - unfold list_index.
    destruct (list_find (eq name) (dim_names a)) as [[i y]|] eqn:Hfind;
      [|discriminate].
    simpl. intros [= <-]. split; [done|].
    apply list_find_Some in Hfind as (Hi & _). by apply lookup_lt_Some in Hi.
Qed.

(** The stage of [__post_init__] that raised. *)
Lemma post_init_Raise p (e : exn) :
  __post_init__ p = Raise e →
  resolve_fields (attr_names (array p)) (dim_names (array p)) (fields p)
    = Raise e ∨
  (nonempty_domain (array p) = None ∧ e = TypeError not_iterable_msg) ∨
  resolve_key_dim_index (dim_names (array p)) (key_dim p) = Raise e ∨
  (∃ k ned, nonempty_domain (array p) = Some ned ∧
     resolve_key_dim_index (dim_names (array p)) (key_dim p) = Ok k ∧
     swap_key_dim k (dim_names (array p)) ned = Raise e) ∨
  (∃ k ned names' ned', nonempty_domain (array p) = Some ned ∧
     resolve_key_dim_index (dim_names (array p)) (key_dim p) = Ok k ∧
     swap_key_dim k (dim_names (array p)) ned = Ok (names', ned') ∧
     resolve_secondary_slices names' (secondary_slices p) ∅ = Raise e).
Proof.
  unfold __post_init__.
  destruct (resolve_fields _ _ _) as [[[ff at_] dm]|e1]; simpl;
    [|intros [= <-]; by left].
  destruct (nonempty_domain (array p)) as [ned|] eqn:Hdom; simpl;
    [|intros [= <-]; right; by left].
  destruct (resolve_key_dim_index _ _) as [k|e2] eqn:Hkey; simpl;
    [|intros [= <-]; right; right; by left].
  destruct (swap_key_dim _ _ _) as [[names' ned']|e3] eqn:Hswap; simpl;
    [|intros [= <-]; right; right; right; left; by exists k, ned].
  destruct (resolve_secondary_slices _ _ _) as [m|e4] eqn:Hm; simpl;
    [discriminate|].
  intros [= <-]. right; right; right; right. by exists k, ned, names', ned'.
Qed.

Lemma swapped_elem_of {A : Type} (k : nat) (l l' : list A) (x : A) :
  (∀ i, l' !! i = l !! swap_position k i) → x ∈ l' ↔ x ∈ l.
Proof.
  intros Hlook. rewrite !list_elem_of_lookup. split.
  - intros [i Hi]. exists (swap_position k i). by rewrite <- Hlook.
  - intros [j Hj]. exists (swap_position k j).
    by rewrite Hlook, swap_position_involutive.
Qed.

Lemma swapped_NoDup {A : Type} (k : nat) (l l' : list A) :
  (∀ i, l' !! i = l !! swap_position k i) → NoDup l → NoDup l'.
Proof.
  intros Hlook Hnd. apply NoDup_alt. intros i j x Hi Hj.
  rewrite Hlook in Hi, Hj.
  pose proof (NoDup_lookup _ _ _ _ Hnd Hi Hj) as Heq.
  rewrite <- (swap_position_involutive k i), Heq.
  apply swap_position_involutive.
Qed.

Lemma unknown_field_msg_ne (g x : string) :
  unknown_field_msg g ≠ not_in_list_msg x.
Proof.
  unfold unknown_field_msg, not_in_list_msg, py_repr, repr_quote.
  destruct (_ && _); simpl; intros H; discriminate H.
Qed.

Lemma resolve_fields_known a (fs : list string) :
  Forall (known_field a) fs →
  ∃ ff at_ dm, resolve_fields (attr_names a) (dim_names a) fs
               = Ok (ff, at_, dm).
Proof.
  intros Hall.
  destruct (resolve_fields (attr_names a) (dim_names a) fs)
    as [[[ff at_] dm]|e] eqn:Hres; [eauto|].
  apply resolve_fields_Raise in Hres
    as (pre & g & post & Heq & _ & HgA & HgD & _).
  rewrite Heq, Forall_app, Forall_cons in Hall.
  destruct Hall as (_ & [?|?] & _); done.
Qed.

Lemma resolve_fields_Ok_known a (fs ff at_ dm : list string) :
  resolve_fields (attr_names a) (dim_names a) fs = Ok (ff, at_, dm) →
  Forall (known_field a) fs.
Proof.
  intros Hres.
  apply resolve_fields_Ok in Hres as [(-> & _)|(_ & _ & Hall & _)]; [|done].
  constructor.
Qed.

Lemma length_dim_names a : length (dim_names a) = ndim a.
Proof. unfold dim_names, ndim. apply length_fmap. Qed.

(** With one non-empty-domain entry per dimension, an accepted key selector
    passes the key lookup and the exchange. *)
Lemma accepted_key_stages a (kd : KeyDim) :
  length <$> nonempty_domain a = Some (ndim a) →
  key_dim_accepted a kd →
  ∃ k ned names' ned', nonempty_domain a = Some ned ∧
    resolve_key_dim_index (dim_names a) kd = Ok k ∧
    swap_key_dim k (dim_names a) ned = Ok (names', ned').
Proof.
  intros Hned Hkey.
  destruct (nonempty_domain a) as [ned|] eqn:Hdom; [|discriminate].
  injection Hned as Hned. rewrite <- length_dim_names in Hned.
  destruct kd as [i|name]; simpl in *.
  - destruct (swap_key_dim i (dim_names a) ned) as [[n' d']|e] eqn:Hs.
    + by exists i, ned, n', d'.
    + apply swap_key_dim_Raise in Hs as (_ & Hpos & Hge).
      rewrite length_dim_names in *. lia.
  - destruct (list_index_elem_of _ _ Hkey) as [j Hj]. rewrite Hj. simpl.
    apply list_index_Ok in Hj as [Hj _]. apply lookup_lt_Some in Hj.
    destruct (swap_key_dim_total j (dim_names a) ned) as (n' & d' & Hs);
      [done|lia|].
    by exists (Z.of_nat j), ned, n', d'.
Qed.

(** ** Success of resolution *)

(** Resolution succeeds on every well-formed request: known fields, a key
    selector designating a dimension, one non-empty-domain entry per
    dimension, and secondary slices on dimensions of the array. *)
Lemma post_init_total p (k : nat) :
  Forall (known_field (array p)) (fields p) →
  key_dim_position (array p) (key_dim p) = Some k →
  length <$> nonempty_domain (array p) = Some (ndim (array p)) →
  Forall (fun it => it.1 ∈ dim_names (array p)) (secondary_slices p) →
  ∃ kw, __post_init__ p = Ok kw ∧ _key_dim_index kw = Z.of_nat k.
Proof.
  intros Hfields Hkey Hned Hslices.
  destruct (__post_init__ p) as [kw|e] eqn:Hinit.
  - exists kw. split; [done|].
    apply post_init_Ok in Hinit as (_ & Hk & _).
    apply key_dim_position_Some in Hkey as [Hk' _]. congruence.
  - exfalso. apply key_dim_position_Some in Hkey as [Hk Hlt].
    apply post_init_Raise in Hinit
      as [Hf|[[Hnone _]|[Hk'|[(k' & ned & Hdom & Hk' & Hs)
                             |(k' & ned & names' & ned' & _ & _ & Hswap & Hm)]]]].
    + apply resolve_fields_Raise in Hf
        as (pre & g & post & Heq & _ & HgA & HgD & _).
      rewrite Heq, Forall_app, Forall_cons in Hfields.
      destruct Hfields as (_ & [?|?] & _); done.
    + by rewrite Hnone in Hned.
    + congruence.
    + assert (k' = Z.of_nat k) as -> by congruence.
      apply swap_key_dim_Raise in Hs as (_ & _ & Hge).
      rewrite Hdom in Hned. injection Hned as Hned.
      unfold ndim in Hned. unfold dim_names in Hlt, Hge.
      rewrite length_fmap in Hlt, Hge. lia.
    + apply swap_key_dim_Ok in Hswap as (_ & _ & _ & Hlook).
      apply resolve_secondary_slices_Raise in Hm
        as (pre & d & s & post & Heq & _ & Hd & _).
      rewrite Heq, Forall_app, Forall_cons in Hslices.
      destruct Hslices as (_ & Hin & _). simpl in Hin. apply Hd.
      by apply (swapped_elem_of _ _ _ d (fun i => proj1 (Hlook i))).
Qed.

(** ** Field selection *)

(** C3: if some requested field is neither an attribute nor a dimension of
    the array, [__post_init__] raises the [ValueError] whose message names
    the first such field, whatever the other arguments are; if every
    requested field is known, [__post_init__] raises no unknown-field
    error. *)
Theorem unknown_field_rejected p :
  (∀ f, f ∈ fields p → ¬ known_field (array p) f →
     ∃ pre g post, fields p = pre ++ g :: post ∧
       Forall (known_field (array p)) pre ∧ ¬ known_field (array p) g ∧
       __post_init__ p = Raise (ValueError (unknown_field_msg g))) ∧
  (Forall (known_field (array p)) (fields p) →
     ∀ g, __post_init__ p ≠ Raise (ValueError (unknown_field_msg g))).
Proof.
  split.
  - intros f Hin Hunknown.
    destruct (resolve_fields (attr_names (array p)) (dim_names (array p))
                (fields p)) as [[[ff at_] dm]|e] eqn:Hres.
    + apply resolve_fields_Ok in Hres as [(Hnil & _)|(_ & _ & Hall & _)].
      * rewrite Hnil in Hin. by apply elem_of_nil in Hin.
      * rewrite Forall_forall in Hall. destruct Hunknown. by apply Hall.
    + pose proof Hres as Hres'.
      apply resolve_fields_Raise in Hres'
        as (pre & g & post & Heq & Hpre & HgA & HgD & ->).
      exists pre, g, post. split_and!; [done|done| |].
      * intros [?|?]; done.
      * unfold __post_init__. by rewrite Hres.
  - intros Hall g Hraise.
    apply post_init_Raise in Hraise
      as [Hf|[[_ ?]|[Hk|[(k & ned & _ & _ & Hs)
                        |(k & ned & names' & ned' & _ & _ & _ & Hm)]]]].
    + apply resolve_fields_Raise in Hf
        as (pre & g' & post & Heq & _ & HgA & HgD & _).
      rewrite Heq, Forall_app, Forall_cons in Hall.
      destruct Hall as (_ & [?|?] & _); done.
    + done.
    + apply resolve_key_dim_index_Raise in Hk as (name & _ & _ & Hmsg).
      assert (unknown_field_msg g = not_in_list_msg name) as Heq
        by congruence.
      by apply unknown_field_msg_ne in Heq.
    + by apply swap_key_dim_Raise in Hs as [? _].
    + apply resolve_secondary_slices_Raise in Hm
        as (pre & d & s & post & _ & _ & _ & Hmsg).
      assert (unknown_field_msg g = not_in_list_msg d) as Heq
        by congruence.
      by apply unknown_field_msg_ne in Heq.
Qed.

(** C7: an instance constructed with an empty [fields] has the array's
    attribute names, in attribute order, as its resolved fields and as the
    attributes to query, and queries no dimension; a dimension name that is
    not also an attribute name is not among the resolved fields. *)
Theorem empty_fields_default_to_attributes p kw :
  __post_init__ p = Ok kw →
  fields p = [] →
  _fields kw = attr_names (array p) ∧
  _query_attrs kw = attr_names (array p) ∧
  _query_dims kw = [] ∧
  (∀ d, d ∈ dim_names (array p) → (d ∉ attr_names (array p)) →
        d ∉ _fields kw).
Proof.
  intros Hinit Hnil. apply post_init_Ok in Hinit as (Hf & _).
  apply resolve_fields_Ok in Hf as [(_ & -> & -> & ->)|(Hne & _)]; [|done].
  by split_and!.
Qed.

(** C9: a requested field that is both an attribute name and a dimension
    name is queried as an attribute and not as a dimension. *)
Theorem attribute_shadows_dimension p kw (f : string) :
  __post_init__ p = Ok kw →
  f ∈ fields p → f ∈ attr_names (array p) → f ∈ dim_names (array p) →
  f ∈ _query_attrs kw ∧ (f ∉ _query_dims kw).
Proof.
  intros Hinit Hin HA HD. apply post_init_Ok in Hinit as (Hf & _).
  apply resolve_fields_Ok in Hf
    as [(Hnil & _)|(_ & _ & _ & -> & ->)].
  - rewrite Hnil in Hin. by apply elem_of_nil in Hin.
  - split.
    + by apply list_elem_of_filter.
    + intros Hd. apply list_elem_of_filter in Hd as [[? _] _]. done.
Qed.

(** ** Secondary slices *)

(** C4: on an instance whose dimension names are distinct, the resolved
    secondary-slice mapping has no entry at index 0, the index of the key
    dimension, so a slice specified for the key dimension is absent from it;
    a slice specified for any other dimension is stored at that dimension's
    index in the resolved order; and the mapping holds nothing else. *)
Theorem key_dim_slice_dropped p kw (k : nat) :
  __post_init__ p = Ok kw →
  NoDup (dim_names (array p)) →
  NoDup (secondary_slices p).*1 →
  key_dim_position (array p) (key_dim p) = Some k →
  _secondary_slices kw !! 0%nat = None ∧
  (∀ d s i, (d, s) ∈ secondary_slices p →
     dim_names (array p) !! k = Some d → _all_dims kw !! i = Some d →
     i = 0%nat ∧ _secondary_slices kw !! i = None) ∧
  (∀ d s, (d, s) ∈ secondary_slices p →
     dim_names (array p) !! k ≠ Some d →
     ∃ i, (0 < i)%nat ∧ _all_dims kw !! i = Some d ∧
          _secondary_slices kw !! i = Some s) ∧
  (∀ i s, _secondary_slices kw !! i = Some s →
     (0 < i)%nat ∧
     ∃ d, (d, s) ∈ secondary_slices p ∧ _all_dims kw !! i = Some d ∧
          dim_names (array p) !! k ≠ Some d).
Proof.
  intros Hinit Hnd Hkeys Hkey.
  destruct (resolved_key_first _ _ _ Hinit Hkey) as (dk & Hdk & Hfirst).
  destruct (resolved_lookup _ _ _ Hinit Hkey)
    as (_ & _ & ned0 & Hned0 & Hlook).
  assert (NoDup (_all_dims kw)) as Hnd'.
  { apply (swapped_NoDup k (dim_names (array p))); [|done].
    intros i. by destruct (Hlook i). }
  apply post_init_Ok in Hinit as (_ & _ & _ & Hm & _).
  assert (_secondary_slices kw !! 0%nat = None) as Hzero.
  { rewrite (resolve_secondary_slices_zero _ _ _ _ Hm). apply lookup_empty. }
  split_and!; [done| | |].
  - intros d s i _ Hd Hi.
    assert (d = dk) as -> by congruence.
    pose proof (NoDup_lookup _ _ _ _ Hnd' Hi Hfirst) as ->. done.
  - intros d s Hin Hd.
    pose proof (resolve_secondary_slices_Ok_known _ _ _ _ Hm) as Hknown.
    rewrite Forall_forall in Hknown. specialize (Hknown _ Hin). simpl in Hknown.
    apply list_elem_of_lookup in Hknown as [i Hi].
    assert (0 < i)%nat as Hpos.
    { destruct i; [|lia]. congruence. }
    exists i. split_and!; [done..|].
    eapply resolve_secondary_slices_kept; [done..| |done].
    by apply list_index_NoDup.
  - intros i s Hs.
    destruct (resolve_secondary_slices_origin _ _ _ _ _ _ Hm Hs)
      as [Hempty|(Hpos & d & Hin & Hd)].
    { by rewrite lookup_empty in Hempty. }
    split; [done|]. exists d. apply list_index_Ok in Hd as [Hd _].
    split_and!; [done..|]. intros Hd'.
    assert (d = dk) as -> by congruence.
    pose proof (NoDup_lookup _ _ _ _ Hnd' Hd Hfirst). lia.
Qed.

(** C8: when the secondary-slice mapping given to the constructor is not
    empty but names only the key dimension, the resolved mapping is empty,
    and [to_tensor_schema] with a chosen kind other than DENSE still raises
    the slicing [NotImplementedError]. *)
Theorem key_only_slices_still_rejected p kw transforms (k : nat)
    (kind : TensorKind) :
  __post_init__ p = Ok kw →
  key_dim_position (array p) (key_dim p) = Some k →
  secondary_slices p ≠ [] →
  (∀ d s, (d, s) ∈ secondary_slices p → dim_names (array p) !! k = Some d) →
  choose_tensor_kind p kw transforms = Ok kind →
  kind ≠ DENSE →
  _secondary_slices kw = ∅ ∧
  to_tensor_schema p kw transforms = Raise (NotImplementedError slicing_msg).
Proof.
  intros Hinit Hkey Hne Honly Hkind Hdense.
  destruct (resolved_key_first _ _ _ Hinit Hkey) as (dk & Hdk & Hfirst).
  apply post_init_Ok in Hinit as (_ & _ & _ & Hm & _).
  split.
  - apply map_eq. intros i. destruct i as [|i].
    + apply (resolve_secondary_slices_zero _ _ _ _ Hm).
    + apply (resolve_secondary_slices_keep _ _ _ _ _ Hm).
      intros d s Hin Hidx. specialize (Honly _ _ Hin).
      assert (d = dk) as -> by congruence.
      apply list_index_zero in Hfirst. congruence.
  - unfold to_tensor_schema. rewrite Hkind. simpl.
    rewrite bool_decide_eq_false_2 by done.
    destruct (secondary_slices p); done.
Qed.

(** C5: on an instance with a non-empty [secondary_slices], a kind is
    always chosen; if it is not DENSE, [to_tensor_schema] raises the slicing
    [NotImplementedError]; if it is DENSE, that error is not raised. *)
Theorem secondary_slices_require_dense p kw transforms :
  __post_init__ p = Ok kw →
  secondary_slices p ≠ [] →
  ∃ kind, choose_tensor_kind p kw transforms = Ok kind ∧
    (kind ≠ DENSE →
     to_tensor_schema p kw transforms
       = Raise (NotImplementedError slicing_msg)) ∧
    (kind = DENSE →
     to_tensor_schema p kw transforms
       ≠ Raise (NotImplementedError slicing_msg)).
Proof.
  intros Hinit Hne.
  destruct (choose_tensor_kind_total _ _ transforms Hinit) as [kind Hkind].
  exists kind. split; [done|]. unfold to_tensor_schema. rewrite Hkind. simpl.
  split.
  - intros Hdense. rewrite bool_decide_eq_false_2 by done.
    destruct (secondary_slices p); done.
  - intros ->. simpl.
    destruct (negb _); [discriminate|].
    destruct (transforms_get transforms DENSE) as [[]|f]; discriminate.
Qed.

(** ** The transform table *)

(** C6 (as amended): on a constructed instance a kind is always chosen, and
    an entry [False] for it makes [to_tensor_schema] raise
    [NotImplementedError].  When the secondary-slice check does not fire
    (the kind is DENSE or no secondary slice was given), an entry [False]
    raises the mapping [NotImplementedError], an entry [True] or no entry
    returns the schema of the chosen kind unwrapped, and a callable entry
    returns that schema wrapped in [MappedTensorSchema] with the callable. *)
Theorem transform_entry_dispatch p kw transforms :
  __post_init__ p = Ok kw →
  ∃ kind, choose_tensor_kind p kw transforms = Ok kind ∧
    (transforms !! kind = Some (TBool false) →
     ∃ msg, to_tensor_schema p kw transforms
            = Raise (NotImplementedError msg)) ∧
    (kind = DENSE ∨ secondary_slices p = [] →
     (transforms !! kind = Some (TBool false) →
      to_tensor_schema p kw transforms
        = Raise (NotImplementedError (mapping_msg kind))) ∧
     (transforms !! kind = Some (TBool true) ∨ transforms !! kind = None →
      to_tensor_schema p kw transforms = Ok (Schema kind kw)) ∧
     (∀ f, transforms !! kind = Some (TCallable f) →
      to_tensor_schema p kw transforms
        = Ok (MappedTensorSchema (Schema kind kw) (TCallable f)))).
Proof.
  intros Hinit.
  destruct (choose_tensor_kind_total _ _ transforms Hinit) as [kind Hkind].
  exists kind. split; [done|].
  unfold to_tensor_schema, transforms_get. rewrite Hkind. simpl. split.
  - intros ->. simpl. destruct (_ && _); eauto.
  - intros Hguard.
    assert (negb (bool_decide (kind = DENSE))
            && (0 <? length (secondary_slices p))%nat = false) as ->.
    { destruct Hguard as [->| ->]; [done|]. simpl. apply andb_false_r. }
    split_and!.
    + by intros ->.
    + by intros [-> | ->].
    + intros f. by intros ->.
Qed.

(** ** Unknown secondary-slice dimensions *)

(** C10 (as amended): an instance whose [secondary_slices] has a key that
    is not a dimension name of the array is never constructed:
    [__post_init__] raises, and what it raises is decided by the first step
    that fails.  A requested field that is unknown gives the unknown-field
    [ValueError].  With known fields, an array without data gives the
    [TypeError] of [list(None)].  With known fields and data, a key name
    that is not a dimension name gives the [ValueError] of its own index
    lookup, and a positive key index that is not below the number of
    dimensions gives an [IndexError].  With known fields, one
    non-empty-domain entry per dimension and a key selector that is a
    dimension name or an index that is not positive or is below the number
    of dimensions, it is the [ValueError] of the list index lookup on the
    first secondary-slice key that is not a dimension name. *)
Theorem unknown_slice_dimension_rejected p (d : string) (s : SecondarySlice) :
  (d, s) ∈ secondary_slices p →
  (d ∉ dim_names (array p)) →
  is_Ok (__post_init__ p) = false ∧
  (¬ Forall (known_field (array p)) (fields p) →
     ∃ g, g ∈ fields p ∧ ¬ known_field (array p) g ∧
          __post_init__ p = Raise (ValueError (unknown_field_msg g))) ∧
  (Forall (known_field (array p)) (fields p) →
     (nonempty_domain (array p) = None →
      __post_init__ p = Raise (TypeError not_iterable_msg)) ∧
     (is_Some (nonempty_domain (array p)) →
      (∀ name, key_dim p = KeyName name → (name ∉ dim_names (array p)) →
         __post_init__ p = Raise (ValueError (not_in_list_msg name))) ∧
      (∀ i, key_dim p = KeyIndex i → (0 < i)%Z →
         (Z.of_nat (ndim (array p)) ≤ i)%Z →
         __post_init__ p
           = Raise (IndexError (if decide (i ≤ PY_SSIZE_T_MAX)%Z
                                then index_out_of_range_msg
                                else index_too_large_msg)))) ∧
     (length <$> nonempty_domain (array p) = Some (ndim (array p)) →
      key_dim_accepted (array p) (key_dim p) →
      ∃ pre d' s' post, secondary_slices p = pre ++ (d', s') :: post ∧
        Forall (fun it => it.1 ∈ dim_names (array p)) pre ∧
        (d' ∉ dim_names (array p)) ∧
        __post_init__ p = Raise (ValueError (not_in_list_msg d')))).
Proof.
  intros Hin Hunknown. split_and!.
  - destruct (__post_init__ p) as [kw|e] eqn:Hinit; [|done]. exfalso.
    apply post_init_Ok in Hinit as (_ & _ & (ned0 & _ & Hswap) & Hm & _).
    apply swap_key_dim_Ok in Hswap as (_ & _ & _ & Hlook).
    apply resolve_secondary_slices_Ok_known in Hm.
    rewrite Forall_forall in Hm. specialize (Hm _ Hin). simpl in Hm.
    pose proof (swapped_elem_of _ _ _ d (fun i => proj1 (Hlook i))) as Hsame.
    apply Hunknown. by apply Hsame.
  - intros Hfields.
    destruct (resolve_fields (attr_names (array p)) (dim_names (array p))
                (fields p)) as [[[ff at_] dm]|e] eqn:Hres.
    { destruct Hfields. by eapply resolve_fields_Ok_known. }
    pose proof Hres as Hres'.
    apply resolve_fields_Raise in Hres'
      as (pre & g & post & Heq & _ & HgA & HgD & ->).
    exists g. split_and!.
    + rewrite Heq. apply elem_of_app. right. apply elem_of_cons. by left.
    + intros [?|?]; done.
    + unfold __post_init__. by rewrite Hres.
  - intros Hfields.
    destruct (resolve_fields_known _ _ Hfields) as (ff & at_ & dm & Hf).
    split_and!.
    + intros Hnone. unfold __post_init__. by rewrite Hf, Hnone.
    + intros [ned Hdom]. split.
      * intros name Hkey Hname. unfold __post_init__.
        rewrite Hf, Hdom, Hkey. simpl.
        destruct (list_index name (dim_names (array p))) as [j|e] eqn:Hj;
          simpl.
        -- apply list_index_Ok in Hj as [Hj _]. destruct Hname.
           by eapply list_elem_of_lookup_2.
        -- by apply list_index_Raise in Hj as [_ ->].
      * intros i Hkey Hpos Hge. unfold __post_init__.
        rewrite Hf, Hdom, Hkey. simpl.
        destruct (swap_key_dim i (dim_names (array p)) ned)
          as [[names' ned']|e] eqn:Hswap; simpl.
        -- apply swap_key_dim_Ok in Hswap as (_ & _ & Hlt & _).
           specialize (Hlt Hpos). rewrite length_dim_names in Hlt. lia.
        -- by apply swap_key_dim_Raise in Hswap as (-> & _).
    + intros Hned Hkey.
      destruct (accepted_key_stages _ _ Hned Hkey)
        as (k & ned & names' & ned' & Hdom & Hk & Hswap).
      pose proof Hswap as Hlook.
      apply swap_key_dim_Ok in Hlook as (_ & _ & _ & Hlook).
      assert (∀ x, x ∈ names' ↔ x ∈ dim_names (array p)) as Hsame.
      { intros x.
        apply (swapped_elem_of _ _ _ x (fun i => proj1 (Hlook i))). }
      destruct (resolve_secondary_slices names' (secondary_slices p) ∅)
        as [m|e] eqn:Hm.
      { apply resolve_secondary_slices_Ok_known in Hm.
        rewrite Forall_forall in Hm. specialize (Hm _ Hin). simpl in Hm.
        destruct Hunknown. by apply Hsame. }
      pose proof Hm as Hm'.
      apply resolve_secondary_slices_Raise in Hm'
        as (pre & d' & s' & post & Heq & Hpre & Hd' & ->).
      exists pre, d', s', post. split_and!; [done| | |].
      * eapply Forall_impl; [done|]. intros it. simpl. apply Hsame.
      * by rewrite <- Hsame.
      * unfold __post_init__. rewrite Hf, Hdom. simpl. rewrite Hk. simpl.
        rewrite Hswap. simpl. by rewrite Hm.
Qed.

End Properties.

(** * The properties on concrete arrays *)

(** C1 as stated fails: with the images array keyed by its third dimension
    [width], the remaining dimensions come out as [height; rows], whereas
    their original order is [rows; height]. *)
Lemma relative_order_not_preserved :
  __post_init__ images_by_width = Ok images_by_width_kw ∧
  key_dim_position (array images_by_width) (key_dim images_by_width)
    = Some 2%nat ∧
  delete 2%nat (dim_names (array images_by_width)) = ["rows"; "height"] ∧
  drop 1 (_all_dims images_by_width_kw) = ["height"; "rows"] ∧
  drop 1 (_all_dims images_by_width_kw)
    ≠ delete 2%nat (dim_names (array images_by_width)).
Proof. split_and!; [reflexivity..|]. vm_compute. discriminate. Qed.

Lemma key_dim_swapped_to_front_witness :
  __post_init__ images_by_width = Ok images_by_width_kw ∧
  key_dim_position (array images_by_width) (key_dim images_by_width)
    = Some 2%nat ∧
  _all_dims images_by_width_kw !! 0%nat
    = dim_names (array images_by_width) !! 2%nat.
Proof.
  split; [reflexivity|]. split; [reflexivity|].
  exact (proj1 (key_dim_swapped_to_front images_by_width images_by_width_kw
                  2 eq_refl eq_refl)).
Defined.

Lemma tensor_kind_selection_witness :
  __post_init__ matrix_by_col = Ok matrix_by_col_kw ∧
  NoDup (dim_names (array matrix_by_col)) ∧
  key_dim_position (array matrix_by_col) (key_dim matrix_by_col)
    = Some 1%nat ∧
  choose_tensor_kind matrix_by_col matrix_by_col_kw csr_off = Ok SPARSE_COO.
Proof.
  assert (NoDup (dim_names (array matrix_by_col))) as Hnd by by_evaluation.
  split; [reflexivity|]. split; [exact Hnd|]. split; [reflexivity|].
  exact (proj1 (proj2 (proj2 (tensor_kind_selection matrix_by_col
                               matrix_by_col_kw csr_off eq_refl))
                  1%nat Hnd eq_refl)).
Defined.

Lemma unknown_field_rejected_witness :
  "depth" ∈ fields matrix_bad_field ∧
  ¬ known_field (array matrix_bad_field) "depth" ∧
  ∃ pre g post, fields matrix_bad_field = pre ++ g :: post ∧
    Forall (known_field (array matrix_bad_field)) pre ∧
    ¬ known_field (array matrix_bad_field) g ∧
    __post_init__ matrix_bad_field
      = Raise (ValueError (unknown_field_msg g)).
Proof.
  assert ("depth" ∈ fields matrix_bad_field) as Hin by by_evaluation.
  assert (¬ known_field (array matrix_bad_field) "depth") as Hunknown.
  { unfold known_field. by_evaluation. }
  split; [exact Hin|]. split; [exact Hunknown|].
  exact (proj1 (unknown_field_rejected matrix_bad_field) "depth" Hin Hunknown).
Defined.

Lemma key_dim_slice_dropped_witness :
  __post_init__ images_cropped = Ok images_cropped_kw ∧
  NoDup (dim_names (array images_cropped)) ∧
  NoDup (secondary_slices images_cropped).*1 ∧
  key_dim_position (array images_cropped) (key_dim images_cropped)
    = Some 2%nat ∧
  _secondary_slices images_cropped_kw !! 0%nat = None.
Proof.
  assert (NoDup (dim_names (array images_cropped))) as Hnd by by_evaluation.
  assert (NoDup (secondary_slices images_cropped).*1) as Hkeys
    by by_evaluation.
  split; [reflexivity|]. split; [exact Hnd|]. split; [exact Hkeys|].
  split; [reflexivity|].
  exact (proj1 (key_dim_slice_dropped images_cropped images_cropped_kw 2
                  eq_refl Hnd Hkeys eq_refl)).
Defined.

Lemma secondary_slices_require_dense_witness :
  __post_init__ matrix_cropped = Ok matrix_cropped_kw ∧
  secondary_slices matrix_cropped ≠ [] ∧
  ∃ kind, choose_tensor_kind matrix_cropped matrix_cropped_kw no_transforms
          = Ok kind ∧
    (kind ≠ DENSE →
     to_tensor_schema matrix_cropped matrix_cropped_kw no_transforms
       = Raise (NotImplementedError slicing_msg)) ∧
    (kind = DENSE →
     to_tensor_schema matrix_cropped matrix_cropped_kw no_transforms
       ≠ Raise (NotImplementedError slicing_msg)).
Proof.
  assert (secondary_slices matrix_cropped ≠ []) as Hne by by_evaluation.
  split; [reflexivity|]. split; [exact Hne|].
  exact (secondary_slices_require_dense matrix_cropped matrix_cropped_kw
           no_transforms eq_refl Hne).
Defined.

(** C6 as stated fails: the sparse matrix with a secondary slice on [col]
    and an empty transform table has chosen kind SPARSE_CSR, for which the
    table has no entry, yet no schema is returned: the slicing
    [NotImplementedError] is raised. *)
Lemma absent_entry_can_still_raise :
  __post_init__ matrix_cropped = Ok matrix_cropped_kw ∧
  choose_tensor_kind matrix_cropped matrix_cropped_kw no_transforms
    = Ok SPARSE_CSR ∧
  no_transforms !! SPARSE_CSR = None ∧
  to_tensor_schema matrix_cropped matrix_cropped_kw no_transforms
    = Raise (NotImplementedError slicing_msg) ∧
  to_tensor_schema matrix_cropped matrix_cropped_kw no_transforms
    ≠ Ok (Schema SPARSE_CSR matrix_cropped_kw).
Proof. split_and!; [reflexivity..|]. vm_compute. discriminate. Qed.

Lemma transform_entry_dispatch_witness :
  __post_init__ images_by_width = Ok images_by_width_kw ∧
  to_tensor_schema images_by_width images_by_width_kw dense_doubled
    = Ok (MappedTensorSchema (Schema DENSE images_by_width_kw)
            (TCallable (fun t => 2 * t)%Z)).
Proof.
  split; [reflexivity|].
  destruct (transform_entry_dispatch images_by_width images_by_width_kw
              dense_doubled eq_refl) as (kind & Hkind & _ & Hdispatch).
  assert (kind = DENSE) as -> by (vm_compute in Hkind; congruence).
  apply (proj2 (proj2 (Hdispatch (or_introl eq_refl)))). reflexivity.
Defined.

Lemma empty_fields_default_to_attributes_witness :
  __post_init__ images_by_width = Ok images_by_width_kw ∧
  fields images_by_width = [] ∧
  _fields images_by_width_kw = ["pixel"; "label"] ∧
  _query_attrs images_by_width_kw = ["pixel"; "label"] ∧
  _query_dims images_by_width_kw = [].
Proof.
  split; [reflexivity|]. split; [reflexivity|].
  destruct (empty_fields_default_to_attributes images_by_width
              images_by_width_kw eq_refl eq_refl) as (Hf & Ha & Hd & _).
  by split_and!.
Defined.

Lemma key_only_slices_still_rejected_witness :
  __post_init__ matrix_key_sliced = Ok matrix_key_sliced_kw ∧
  secondary_slices matrix_key_sliced = [("row", SliceIndex 0)] ∧
  dim_names (array matrix_key_sliced) !! 0%nat = Some "row" ∧
  choose_tensor_kind matrix_key_sliced matrix_key_sliced_kw no_transforms
    = Ok SPARSE_CSR ∧
  _secondary_slices matrix_key_sliced_kw = ∅ ∧
  to_tensor_schema matrix_key_sliced matrix_key_sliced_kw no_transforms
    = Raise (NotImplementedError slicing_msg).
Proof.
  assert (secondary_slices matrix_key_sliced ≠ []) as Hne by by_evaluation.
  assert (∀ d s, (d, s) ∈ secondary_slices matrix_key_sliced →
            dim_names (array matrix_key_sliced) !! 0%nat = Some d) as Honly.
  { intros d s Hin. apply list_elem_of_singleton in Hin.
    by injection Hin as -> _. }
  assert (SPARSE_CSR ≠ DENSE) as Hkind by by_evaluation.
  do 4 (split; [reflexivity|]).
  exact (key_only_slices_still_rejected matrix_key_sliced
           matrix_key_sliced_kw no_transforms 0 SPARSE_CSR
           eq_refl eq_refl Hne Honly eq_refl Hkind).
Defined.

Lemma attribute_shadows_dimension_witness :
  __post_init__ shadowed_x = Ok shadowed_x_kw ∧
  "x" ∈ fields shadowed_x ∧
  "x" ∈ attr_names (array shadowed_x) ∧
  "x" ∈ dim_names (array shadowed_x) ∧
  "x" ∈ _query_attrs shadowed_x_kw ∧ ("x" ∉ _query_dims shadowed_x_kw).
Proof.
  assert ("x" ∈ fields shadowed_x) as Hin by by_evaluation.
  assert ("x" ∈ attr_names (array shadowed_x)) as Hattr by by_evaluation.
  assert ("x" ∈ dim_names (array shadowed_x)) as Hdim by by_evaluation.
  split; [reflexivity|]. split; [exact Hin|]. split; [exact Hattr|].
  split; [exact Hdim|].
  exact (attribute_shadows_dimension shadowed_x shadowed_x_kw "x"
           eq_refl Hin Hattr Hdim).
Defined.

(** C10 as stated fails: with a key index out of range, the unknown
    secondary-slice key [depth] is never looked up; [__post_init__] raises
    the [IndexError] of the exchange, not a [ValueError]. *)
Lemma unknown_slice_key_index_error :
  ("depth", SliceIndex 0) ∈ secondary_slices matrix_bad_key_and_slice ∧
  ("depth" ∉ dim_names (array matrix_bad_key_and_slice)) ∧
  __post_init__ matrix_bad_key_and_slice
    = Raise (IndexError "list index out of range") ∧
  ¬ ∃ msg, __post_init__ matrix_bad_key_and_slice = Raise (ValueError msg).
Proof.
  split_and!; [by_evaluation|by_evaluation|reflexivity|].
  intros [msg Hmsg]. vm_compute in Hmsg. discriminate.
Qed.

Lemma unknown_slice_dimension_rejected_witness :
  ("depth", SliceIndex 0) ∈ secondary_slices matrix_bad_slice ∧
  ("depth" ∉ dim_names (array matrix_bad_slice)) ∧
  is_Ok (__post_init__ matrix_bad_slice) = false ∧
  __post_init__ matrix_bad_slice = Raise (ValueError "'depth' is not in list").
Proof.
  assert (("depth", SliceIndex 0) ∈ secondary_slices matrix_bad_slice)
    as Hin by by_evaluation.
  assert ("depth" ∉ dim_names (array matrix_bad_slice)) as Hunknown
    by by_evaluation.
  split; [exact Hin|]. split; [exact Hunknown|]. split; [|reflexivity].
  exact (proj1 (unknown_slice_dimension_rejected matrix_bad_slice "depth"
                  (SliceIndex 0) Hin Hunknown)).
Defined.

(** * Further properties of the resolver *)

Section Further.

Context {Bound Tensor : Type}.
Implicit Types (a : Array Bound) (p : ArrayParams Bound).
Implicit Types (kw : TensorSchemaKwargs Bound).
Implicit Types (transforms : gmap TensorKind (Transform Tensor)).

(** X1: on an array whose non-empty domain has one entry per dimension,
    [__post_init__] succeeds exactly when every requested field is an
    attribute or dimension name, the key selector is a dimension name or an
    index that is not positive or lies below the number of dimensions, and
    every secondary-slice key is a dimension name. *)
Theorem post_init_succeeds_iff p :
  length <$> nonempty_domain (array p) = Some (ndim (array p)) →
  (∃ kw, __post_init__ p = Ok kw) ↔
  Forall (known_field (array p)) (fields p) ∧
  key_dim_accepted (array p) (key_dim p) ∧
  Forall (fun it => it.1 ∈ dim_names (array p)) (secondary_slices p).
Proof.
  intros Hned. split.
  - intros [kw Hinit].
    apply post_init_Ok in Hinit
      as (Hf & Hk & (ned0 & Hned0 & Hswap) & Hm & _).
    apply swap_key_dim_Ok in Hswap as (_ & _ & Hlt & Hlook).
    split_and!.
    + by eapply resolve_fields_Ok_known.
    + unfold key_dim_accepted.
      destruct (key_dim p) as [i|name]; simpl in Hk.
      * injection Hk as Hk. rewrite <- Hk, length_dim_names in Hlt. lia.
      * apply bind_Ok in Hk as (j & Hj & _).
        apply list_index_Ok in Hj as [Hj _].
        by eapply list_elem_of_lookup_2.
    + apply resolve_secondary_slices_Ok_known in Hm.
      eapply Forall_impl; [done|]. intros it. simpl.
      apply (swapped_elem_of _ _ _ _ (fun i => proj1 (Hlook i))).
  - intros (Hfields & Hkey & Hslices).
    destruct (__post_init__ p) as [kw|e] eqn:Hinit; [eauto|]. exfalso.
    apply post_init_Raise in Hinit
      as [Hf|[[Hnone _]|[Hk|[(k & ned & Hdom & Hk & Hs)
                            |(k & ned & names' & ned' & _ & _ & Hswap & Hm)]]]].
    + destruct (resolve_fields_known _ _ Hfields) as (? & ? & ? & ?).
      congruence.
    + by rewrite Hnone in Hned.
    + apply resolve_key_dim_index_Raise in Hk as (name & Hname & Hnot & _).
      rewrite Hname in Hkey. done.
    + apply swap_key_dim_Raise in Hs as (_ & Hpos & Hge).
      rewrite Hdom in Hned. injection Hned as Hned.
      rewrite length_dim_names, Hned in Hge.
      unfold key_dim_accepted in Hkey.
      destruct (key_dim p) as [i|name]; simpl in Hk.
      * injection Hk as <-. lia.
      * apply bind_Ok in Hk as (j & Hj & [= <-]).
        apply list_index_Ok in Hj as [Hj _]. apply lookup_lt_Some in Hj.
        rewrite length_dim_names in Hj. lia.
    + apply swap_key_dim_Ok in Hswap as (_ & _ & _ & Hlook).
      apply resolve_secondary_slices_Raise in Hm
        as (pre & d & s & post & Heq & _ & Hd & _).
      rewrite Heq, Forall_app, Forall_cons in Hslices.
      destruct Hslices as (_ & Hin & _). simpl in Hin. apply Hd.
      by apply (swapped_elem_of _ _ _ d (fun i => proj1 (Hlook i))).
Qed.

(** X2: a key index that is zero or negative moves nothing: the resolved
    dimension names and bounds are in the array's order and the index is
    stored as given.  In particular a negative index is not read from the
    end: with distinct dimension names, the dimension at position
    [ndim + i] is not the one at resolved position 0. *)
Theorem non_positive_key_index_moves_nothing p kw (i : Z) :
  __post_init__ p = Ok kw →
  key_dim p = KeyIndex i →
  (i ≤ 0)%Z →
  _key_dim_index kw = i ∧
  _all_dims kw = dim_names (array p) ∧
  nonempty_domain (array p) = Some (_ned kw) ∧
  (NoDup (dim_names (array p)) → (- Z.of_nat (ndim (array p)) < i < 0)%Z →
   _all_dims kw !! 0%nat
     ≠ dim_names (array p) !! Z.to_nat (Z.of_nat (ndim (array p)) + i)).
Proof.
  intros Hinit Hkey Hi.
  apply post_init_Ok in Hinit as (_ & Hk & (ned0 & Hned0 & Hswap) & _).
  rewrite Hkey in Hk. simpl in Hk. injection Hk as Hk.
  rewrite <- Hk in Hswap. unfold swap_key_dim in Hswap.
  rewrite (proj2 (Z.ltb_ge 0 i)) in Hswap by done.
  injection Hswap as Hdims Hned.
  split_and!; [done|done|congruence|].
  intros Hnd Hneg. rewrite <- Hdims. intros Heq.
  destruct (lookup_lt_is_Some_2 (dim_names (array p)) 0) as [x Hx].
  { rewrite length_dim_names. lia. }
  rewrite Hx in Heq. symmetry in Heq.
  pose proof (NoDup_lookup _ _ _ _ Hnd Hx Heq). lia.
Qed.

(** X3: when every requested field is known and the array holds data, a
    positive key index that is not below the number of dimensions (or of
    non-empty-domain entries) makes [__post_init__] raise [IndexError],
    whatever the secondary slices are: "list index out of range" when the
    index fits a [Py_ssize_t], "cannot fit 'int' into an index-sized
    integer" when it does not. *)
Theorem key_index_out_of_range p (i : Z) (ned : list Bound) :
  Forall (known_field (array p)) (fields p) →
  nonempty_domain (array p) = Some ned →
  key_dim p = KeyIndex i →
  (0 < i)%Z →
  (Z.of_nat (ndim (array p)) ≤ i)%Z ∨ (Z.of_nat (length ned) ≤ i)%Z →
  __post_init__ p
    = Raise (IndexError (if decide (i ≤ PY_SSIZE_T_MAX)%Z
                         then index_out_of_range_msg
                         else index_too_large_msg)).
Proof.
  intros Hfields Hdom Hkey Hpos Hrange.
  destruct (resolve_fields_known _ _ Hfields) as (ff & at_ & dm & Hf).
  unfold __post_init__. rewrite Hf, Hdom, Hkey. simpl.
  destruct (swap_key_dim i (dim_names (array p)) ned)
    as [[names' ned']|e] eqn:Hswap; simpl.
  - exfalso. unfold swap_key_dim in Hswap.
    rewrite (proj2 (Z.ltb_lt 0 i)) in Hswap by done.
    apply bind_Ok in Hswap as (n1 & Hn & Hswap).
    apply bind_Ok in Hswap as (d1 & Hd & _).
    apply swap_first_Ok in Hn as (Hn & _); [|lia].
    apply swap_first_Ok in Hd as (Hd & _); [|lia].
    rewrite length_dim_names in Hn. lia.
  - by apply swap_key_dim_Raise in Hswap as (-> & _).
Qed.

(** X4: when every requested field is known and the array holds data, a
    key name that is not a dimension name makes [__post_init__] raise the
    [ValueError] of the list index lookup, whose message is the [repr] of
    the key followed by " is not in list", whatever the secondary slices
    are. *)
Theorem unknown_key_name_rejected p (name : string) :
  Forall (known_field (array p)) (fields p) →
  is_Some (nonempty_domain (array p)) →
  key_dim p = KeyName name →
  (name ∉ dim_names (array p)) →
  __post_init__ p = Raise (ValueError (py_repr name +:+ " is not in list")).
Proof.
  intros Hfields [ned Hdom] Hkey Hnot.
  destruct (resolve_fields_known _ _ Hfields) as (ff & at_ & dm & Hf).
  unfold __post_init__. rewrite Hf, Hdom, Hkey. simpl.
  destruct (list_index name (dim_names (array p))) as [j|e] eqn:Hj; simpl.
  - apply list_index_Ok in Hj as [Hj _]. destruct Hnot.
    by eapply list_elem_of_lookup_2.
  - by apply list_index_Raise in Hj as [_ ->].
Qed.

(** X14: no instance is constructed on an array without data:
    [__post_init__] raises the [TypeError] of [list(None)] when every
    requested field is known, and the unknown-field [ValueError] otherwise,
    whatever the key selector and the secondary slices are. *)
Theorem array_without_data_rejected p :
  nonempty_domain (array p) = None →
  is_Ok (__post_init__ p) = false ∧
  (Forall (known_field (array p)) (fields p) →
   __post_init__ p = Raise (TypeError not_iterable_msg)) ∧
  (∀ e, __post_init__ p = Raise e →
     (e = TypeError not_iterable_msg ∧
      Forall (known_field (array p)) (fields p)) ∨
     (∃ g, g ∈ fields p ∧ ¬ known_field (array p) g ∧
           e = ValueError (unknown_field_msg g))).
Proof.
  intros Hnone. unfold __post_init__.
  destruct (resolve_fields (attr_names (array p)) (dim_names (array p))
              (fields p)) as [[[ff at_] dm]|e0] eqn:Hres; simpl.
  - rewrite Hnone. simpl.
    pose proof (resolve_fields_Ok_known _ _ _ _ _ Hres) as Hknown.
    split_and!; [done..|]. intros e [= <-]. by left.
  - apply resolve_fields_Raise in Hres
      as (pre & g & post & Heq & _ & HgA & HgD & ->).
    assert (¬ known_field (array p) g) as Hg by (intros [?|?]; done).
    assert (g ∈ fields p) as Hin.
    { rewrite Heq. apply elem_of_app. right. apply elem_of_cons. by left. }
    split_and!; [done| |].
    + intros Hall. rewrite Forall_forall in Hall. destruct Hg. by apply Hall.
    + intros e [= <-]. right. by exists g.
Qed.

Lemma delete_insert_same {A : Type} (l : list A) (k : nat) (x : A) :
  delete k (<[k := x]> l) = delete k l.
Proof.
  rewrite !delete_take_drop.
  by rewrite take_insert_ge, drop_insert_lt by lia.
Qed.

Lemma swap_first_Permutation {A : Type} (k : Z) (l l' : list A) :
  (0 ≤ k)%Z → swap_first k l = Ok l' → l' ≡ₚ l.
Proof.
  intros Hnonneg. rewrite swap_first_nonneg by done.
  destruct (l !! Z.to_nat k) as [xk|] eqn:Hk; [|discriminate].
  destruct (l !! 0%nat) as [x0|] eqn:H0; [|discriminate].
  intros [= <-]. destruct (Z.to_nat k) as [|j].
  - rewrite list_insert_insert_eq. by rewrite list_insert_id.
  - destruct l as [|y t]; [discriminate|]. simpl in *.
    injection H0 as ->.
    rewrite (delete_Permutation t j xk Hk) at 2.
    rewrite (delete_Permutation (<[j := x0]> t) j x0).
    + rewrite delete_insert_same. apply perm_swap.
    + apply list_lookup_insert_eq. by eapply lookup_lt_Some.
Qed.

Lemma swap_first_twice {A : Type} (k : Z) (l l' : list A) :
  (0 ≤ k)%Z → swap_first k l = Ok l' → swap_first k l' = Ok l.
Proof.
  intros Hnonneg Hswap.
  apply swap_first_Ok in Hswap as (Hlt & Hlen & Hlook); [|done].
  destruct (swap_first k l') as [l''|e] eqn:Hback.
  - f_equal. apply swap_first_Ok in Hback as (_ & _ & Hlook'); [|done].
    apply list_eq. intros i.
    by rewrite Hlook', Hlook, swap_position_involutive.
  - apply swap_first_Raise in Hback as [Hge _]; [lia|done].
Qed.

(** X5: resolution neither drops nor duplicates a dimension: on every
    constructed instance the resolved dimension names are a permutation of
    the array's dimension names and the resolved bounds a permutation of its
    non-empty domain, so distinct names stay distinct. *)
Theorem resolved_dims_permutation p kw :
  __post_init__ p = Ok kw →
  _all_dims kw ≡ₚ dim_names (array p) ∧
  (∃ ned, nonempty_domain (array p) = Some ned ∧ _ned kw ≡ₚ ned) ∧
  length (_all_dims kw) = ndim (array p) ∧
  (NoDup (dim_names (array p)) → NoDup (_all_dims kw)).
Proof.
  intros Hinit.
  apply post_init_Ok in Hinit as (_ & _ & (ned0 & Hned0 & Hswap) & _).
  assert (_all_dims kw ≡ₚ dim_names (array p) ∧ _ned kw ≡ₚ ned0)
    as [Hdims Hned].
  { unfold swap_key_dim in Hswap.
    destruct (0 <? _key_dim_index kw)%Z eqn:Hpos.
    - apply Z.ltb_lt in Hpos.
      apply bind_Ok in Hswap as (n1 & Hn & Hswap).
      apply bind_Ok in Hswap as (d1 & Hd & [= <- <-]).
      split.
      + exact (swap_first_Permutation _ _ _ (Z.lt_le_incl _ _ Hpos) Hn).
      + exact (swap_first_Permutation _ _ _ (Z.lt_le_incl _ _ Hpos) Hd).
    - by injection Hswap as <- <-. }
  split_and!; [done| | |].
  - by exists ned0.
  - by rewrite Hdims, length_dim_names.
  - intros Hnd. by rewrite Hdims.
Qed.

(** X6: the exchange can be undone: exchanging positions 0 and
    [_key_dim_index] of the resolved names and bounds once more gives back
    the array's dimension names and non-empty domain. *)
Theorem swap_key_dim_round_trip p kw :
  __post_init__ p = Ok kw →
  ∃ ned, nonempty_domain (array p) = Some ned ∧
    swap_key_dim (_key_dim_index kw) (_all_dims kw) (_ned kw)
      = Ok (dim_names (array p), ned).
Proof.
  intros Hinit.
  apply post_init_Ok in Hinit as (_ & _ & (ned0 & Hned0 & Hswap) & _).
  exists ned0. split; [done|].
  unfold swap_key_dim in *.
  destruct (0 <? _key_dim_index kw)%Z eqn:Hpos.
  - apply Z.ltb_lt in Hpos.
    apply bind_Ok in Hswap as (n1 & Hn & Hswap).
    apply bind_Ok in Hswap as (d1 & Hd & [= <- <-]).
    rewrite (swap_first_twice _ _ _ (Z.lt_le_incl _ _ Hpos) Hn).
    by rewrite (swap_first_twice _ _ _ (Z.lt_le_incl _ _ Hpos) Hd).
  - by injection Hswap as <- <-.
Qed.

Lemma length_filter_split (A D : list string) (fs : list string) :
  Forall (fun f => f ∈ A ∨ f ∈ D) fs →
  (length (filter (fun f => f ∈ A) fs)
   + length (filter (fun f => (f ∉ A) ∧ f ∈ D) fs))%nat = length fs.
Proof.
  induction fs as [|f fs IH]; [done|]. intros Hall.
  apply Forall_cons in Hall as [Hf Hall]. specialize (IH Hall).
  rewrite !filter_cons. destruct (decide (f ∈ A)) as [HA|HA].
  - rewrite decide_False by (intros [? _]; done). simpl. lia.
  - rewrite decide_True by (destruct Hf; done). simpl. lia.
Qed.

(** X7: an instance constructed with a non-empty [fields] keeps the request
    as its resolved fields; the attributes to query are the requested
    attribute names and the dimensions to query the requested names that are
    only dimension names, each in request order with repetitions kept; every
    requested field lands in exactly one of the two. *)
Theorem explicit_fields_partition p kw :
  __post_init__ p = Ok kw →
  fields p ≠ [] →
  _fields kw = fields p ∧
  _query_attrs kw
    = filter (fun f => f ∈ attr_names (array p)) (fields p) ∧
  _query_dims kw
    = filter (fun f => (f ∉ attr_names (array p)) ∧ f ∈ dim_names (array p))
        (fields p) ∧
  (length (_query_attrs kw) + length (_query_dims kw))%nat
    = length (fields p) ∧
  (∀ f, f ∈ fields p →
        (f ∈ _query_attrs kw ∧ (f ∉ _query_dims kw))
        ∨ ((f ∉ _query_attrs kw) ∧ f ∈ _query_dims kw)).
Proof.
  intros Hinit Hne. apply post_init_Ok in Hinit as (Hf & _).
  apply resolve_fields_Ok in Hf
    as [(Hnil & _)|(_ & -> & Hall & -> & ->)]; [done|].
  split_and!; [done..| |].
  - by apply length_filter_split.
  - intros f Hin. rewrite !list_elem_of_filter.
    rewrite Forall_forall in Hall.
    destruct (decide (f ∈ attr_names (array p))) as [HA|HA].
    + left. split; [done|]. intros [[? _] _]. done.
    + right. split; [by intros [? _]|].
      destruct (Hall f Hin); done.
Qed.

Lemma resolve_secondary_slices_size (all_dims : list string)
    (items : list (string * SecondarySlice))
    (acc m : gmap nat SecondarySlice) :
  resolve_secondary_slices all_dims items acc = Ok m →
  (size m ≤ size acc + length items)%nat.
Proof.
  revert acc. induction items as [|[d s] items IH]; intros acc; simpl.
  - intros [= ->]. lia.
  - intros Hrun. apply bind_Ok in Hrun as (j & _ & Hrun).
    apply IH in Hrun. case_decide; [|lia].
    rewrite map_size_insert in Hrun.
    destruct (acc !! j); unfold id in Hrun; lia.
Qed.

(** X8: every key of the resolved secondary-slice mapping is the index of a
    dimension other than the first in the resolved order, its value is a
    slice given for the dimension at that index, and the mapping has no
    more entries than slices were given. *)
Theorem resolved_slice_indices_in_range p kw :
  __post_init__ p = Ok kw →
  (∀ i s, _secondary_slices kw !! i = Some s →
     (0 < i < ndim (array p))%nat ∧
     ∃ d, (d, s) ∈ secondary_slices p ∧ _all_dims kw !! i = Some d) ∧
  (size (_secondary_slices kw) ≤ length (secondary_slices p))%nat.
Proof.
  intros Hinit.
  apply post_init_Ok in Hinit as (_ & _ & (ned0 & Hned0 & Hswap) & Hm & _).
  apply swap_key_dim_Ok in Hswap as (Hlen & _ & _ & _).
  rewrite length_dim_names in Hlen. split.
  - intros i s Hs.
    destruct (resolve_secondary_slices_origin _ _ _ _ _ _ Hm Hs)
      as [Hempty|(Hpos & d & Hin & Hd)].
    { by rewrite lookup_empty in Hempty. }
    apply list_index_Ok in Hd as [Hd _].
    pose proof (lookup_lt_Some _ _ _ Hd) as Hlt. rewrite Hlen in Hlt.
    split; [lia|]. by exists d.
  - apply resolve_secondary_slices_size in Hm.
    by rewrite map_size_empty in Hm.
Qed.

Lemma resolve_secondary_slices_lookup_iff (all_dims : list string)
    (items : list (string * SecondarySlice)) (m : gmap nat SecondarySlice)
    (i : nat) (s : SecondarySlice) :
  NoDup items.*1 →
  resolve_secondary_slices all_dims items ∅ = Ok m →
  m !! i = Some s ↔
  (0 < i)%nat ∧ ∃ d, (d, s) ∈ items ∧ list_index d all_dims = Ok i.
Proof.
  intros Hnd Hm. split.
  - intros Hs.
    destruct (resolve_secondary_slices_origin _ _ _ _ _ _ Hm Hs)
      as [Hempty|?]; [|done].
    by rewrite lookup_empty in Hempty.
  - intros (Hpos & d & Hin & Hd).
    by eapply resolve_secondary_slices_kept.
Qed.

(** X9: the insertion order of [secondary_slices] does not matter: the same
    slices given in any other order resolve to the same
    [_tensor_schema_kwargs]. *)
Theorem secondary_slices_order_irrelevant p kw
    (items : list (string * SecondarySlice)) :
  __post_init__ p = Ok kw →
  NoDup (secondary_slices p).*1 →
  secondary_slices p ≡ₚ items →
  __post_init__ (with_secondary_slices p items) = Ok kw.
Proof.
  intros Hinit Hnd Hperm.
  apply post_init_Ok in Hinit
    as (Hf & Hk & (ned0 & Hned0 & Hswap) & Hm & Harr).
  destruct kw as [arr k ff names' ned' m at_ dm]. simpl in *. subst arr.
  unfold __post_init__, with_secondary_slices. simpl.
  rewrite Hf. simpl. rewrite Hned0. simpl. rewrite Hk. simpl.
  rewrite Hswap. simpl.
  destruct (resolve_secondary_slices names' items ∅) as [m'|e] eqn:Hm'; simpl.
  - do 2 f_equal. apply map_eq. intros i. apply option_eq. intros s.
    rewrite (resolve_secondary_slices_lookup_iff _ _ _ i s Hnd Hm).
    assert (NoDup items.*1) as Hnd' by by rewrite <- Hperm.
    rewrite (resolve_secondary_slices_lookup_iff _ _ _ i s Hnd' Hm').
    split; intros (Hpos & d & Hin & Hd); (split; [done|]); exists d;
      (split; [|done]).
    + by rewrite Hperm.
    + by rewrite <- Hperm.
  - exfalso. apply resolve_secondary_slices_Raise in Hm'
      as (pre & d & s & post & Heq & _ & Hd & _).
    apply resolve_secondary_slices_Ok_known in Hm.
    rewrite Forall_forall in Hm. apply Hd, (Hm (d, s)).
    rewrite Hperm, Heq. apply elem_of_app. right.
    apply elem_of_cons. by left.
Qed.

Lemma slicing_msg_ne_mapping_msg (kind : TensorKind) :
  slicing_msg ≠ mapping_msg kind.
Proof. unfold slicing_msg, mapping_msg. simpl. intros H. discriminate H. Qed.

Lemma mapping_msg_inj (k1 k2 : TensorKind) :
  mapping_msg k1 = mapping_msg k2 → k1 = k2.
Proof. destruct k1, k2; simpl; intros H; (done || discriminate H). Qed.

Lemma all_integer_dims_false a (names : list string) :
  all_integer_dims a names = Ok false →
  ∃ d, d ∈ dims a ∧ is_integer_dtype (dim_dtype d) = false.
Proof.
  induction names as [|n names IH]; simpl; [discriminate|].
  unfold dim_by_name.
  destruct (list_find _ (dims a)) as [[i d]|] eqn:Hfind; simpl;
    [|discriminate].
  apply list_find_Some in Hfind as (Hi & _ & _).
  destruct (is_integer_dtype (dim_dtype d)) eqn:Hint; [done|].
  intros _. exists d. split; [|done]. by eapply list_elem_of_lookup_2.
Qed.

(** X11: an inferred kind agrees with the array: it is DENSE exactly when
    the array is dense, SPARSE_CSR only for a 2-dimensional array whose
    table does not map SPARSE_CSR to [False], and RAGGED only when the array
    has a dimension of non-integer dtype.  So disabling SPARSE_CSR in the
    table never makes [to_tensor_schema] fail for it on an instance without
    a pinned kind. *)
Theorem inferred_kind_agrees_with_array p kw transforms (kind : TensorKind) :
  __post_init__ p = Ok kw →
  tensor_kind p = None →
  choose_tensor_kind p kw transforms = Ok kind →
  (kind = DENSE ↔ sparse (array p) = false) ∧
  (kind = SPARSE_CSR →
   ndim (array p) = 2%nat ∧ transforms !! SPARSE_CSR ≠ Some (TBool false)) ∧
  (kind = RAGGED →
   ∃ d, d ∈ dims (array p) ∧ is_integer_dtype (dim_dtype d) = false) ∧
  (transforms !! SPARSE_CSR = Some (TBool false) →
   to_tensor_schema p kw transforms
     ≠ Raise (NotImplementedError (mapping_msg SPARSE_CSR))).
Proof.
  intros _ Hnone Hkind.
  assert ((kind = DENSE ↔ sparse (array p) = false) ∧
          (kind = SPARSE_CSR →
           ndim (array p) = 2%nat ∧
           transforms !! SPARSE_CSR ≠ Some (TBool false)) ∧
          (kind = RAGGED →
           ∃ d, d ∈ dims (array p) ∧ is_integer_dtype (dim_dtype d) = false))
    as (Hdense & Hcsr & Hragged).
  { unfold choose_tensor_kind in Hkind. rewrite Hnone in Hkind.
    destruct (sparse (array p)); simpl in Hkind.
    2:{ injection Hkind as <-. by split_and!. }
    destruct (all_integer_dims (array p) (drop 1 (_all_dims kw)))
      as [[]|e] eqn:Hall; simpl in Hkind; [| |discriminate].
    - destruct (Nat.eqb_spec (ndim (array p)) 2) as [Hnd|Hnd];
        simpl in Hkind; [|injection Hkind as <-; by split_and!].
      rewrite csr_disabled_get in Hkind. unfold csr_disabled in Hkind.
      destruct (transforms !! SPARSE_CSR) as [[[]|f]|];
        injection Hkind as <-; by split_and!.
    - injection Hkind as <-. split_and!; [done..|].
      intros _. by eapply all_integer_dims_false. }
  split_and!; [done..|].
  intros Hoff Hraise.
  assert (kind ≠ SPARSE_CSR) as Hne.
  { intros Heq. by destruct (Hcsr Heq). }
  unfold to_tensor_schema in Hraise. rewrite Hkind in Hraise.
  simpl in Hraise.
  destruct (_ && _).
  - assert (slicing_msg = mapping_msg SPARSE_CSR) as Hmsg by congruence.
    by apply slicing_msg_ne_mapping_msg in Hmsg.
  - destruct (negb _).
    + assert (mapping_msg kind = mapping_msg SPARSE_CSR) as Hmsg
        by congruence.
      by apply mapping_msg_inj in Hmsg.
    + by destruct (transforms_get transforms kind) as [[]|f].
Qed.

(** X12: naming the key dimension and giving its index are the same
    request: on an array with distinct dimension names, [__post_init__]
    with the name of the dimension at position [j] as key has the outcome,
    result or exception, of [__post_init__] with the index [j] as key. *)
Theorem key_name_same_as_index p (name : string) (j : nat) :
  NoDup (dim_names (array p)) →
  dim_names (array p) !! j = Some name →
  __post_init__ (with_key_dim p (KeyName name))
    = __post_init__ (with_key_dim p (KeyIndex (Z.of_nat j))).
Proof.
  intros Hnd Hj. unfold __post_init__, with_key_dim. simpl.
  by rewrite (list_index_NoDup _ _ _ Hnd Hj).
Qed.

(** X13: a constructed instance only queries names the array has: every
    attribute to query is an attribute name of the array, every dimension
    to query is a dimension name of the array, both are among the resolved
    fields, and every resolved field is an attribute or dimension name. *)
Theorem queried_names_are_known p kw :
  __post_init__ p = Ok kw →
  Forall (fun f => f ∈ attr_names (array p)) (_query_attrs kw) ∧
  Forall (fun f => f ∈ dim_names (array p)) (_query_dims kw) ∧
  (∀ f, f ∈ _query_attrs kw ∨ f ∈ _query_dims kw → f ∈ _fields kw) ∧
  Forall (known_field (array p)) (_fields kw).
Proof.
  intros Hinit. apply post_init_Ok in Hinit as (Hf & _).
  apply resolve_fields_Ok in Hf
    as [(_ & -> & -> & ->)|(_ & -> & Hall & -> & ->)].
  - split_and!.
    + by apply Forall_forall.
    + constructor.
    + intros f [?|Hin]; [done|]. by apply elem_of_nil in Hin.
    + apply Forall_forall. intros f ?. by left.
  - split_and!.
    + apply Forall_forall. intros f Hin.
      by apply list_elem_of_filter in Hin as [? _].
    + apply Forall_forall. intros f Hin.
      by apply list_elem_of_filter in Hin as [[_ ?] _].
    + intros f [Hin|Hin]; by apply list_elem_of_filter in Hin as [_ ?].
    + done.
Qed.

End Further.

(** * The further properties on concrete arrays *)

Lemma post_init_succeeds_iff_witness :
  length <$> nonempty_domain (array images_cropped)
    = Some (ndim (array images_cropped)) ∧
  ((∃ kw, __post_init__ images_cropped = Ok kw) ↔
   Forall (known_field (array images_cropped)) (fields images_cropped) ∧
   key_dim_accepted (array images_cropped) (key_dim images_cropped) ∧
   Forall (fun it => it.1 ∈ dim_names (array images_cropped))
     (secondary_slices images_cropped)).
Proof.
  split; [reflexivity|].
  exact (post_init_succeeds_iff images_cropped eq_refl).
Defined.

Lemma non_positive_key_index_moves_nothing_witness :
  __post_init__ matrix_last = Ok matrix_last_kw ∧
  key_dim matrix_last = KeyIndex (-1) ∧
  (-1 ≤ 0)%Z ∧
  _key_dim_index matrix_last_kw = (-1)%Z ∧
  _all_dims matrix_last_kw = dim_names (array matrix_last) ∧
  nonempty_domain (array matrix_last) = Some (_ned matrix_last_kw).
Proof.
  assert (-1 ≤ 0)%Z as Hle by by_evaluation.
  do 2 (split; [reflexivity|]). split; [exact Hle|].
  destruct (non_positive_key_index_moves_nothing matrix_last matrix_last_kw
              (-1) eq_refl eq_refl Hle) as (Hk & Hdims & Hned & _).
  by split_and!.
Defined.

Lemma key_index_out_of_range_witness :
  Forall (known_field (array matrix_bad_key_and_slice))
    (fields matrix_bad_key_and_slice) ∧
  nonempty_domain (array matrix_bad_key_and_slice)
    = Some [(0, 9); (0, 4)]%Z ∧
  key_dim matrix_bad_key_and_slice = KeyIndex 5 ∧
  (0 < 5)%Z ∧
  (Z.of_nat (ndim (array matrix_bad_key_and_slice)) ≤ 5)%Z ∧
  __post_init__ matrix_bad_key_and_slice
    = Raise (IndexError "list index out of range").
Proof.
  assert (Forall (known_field (array matrix_bad_key_and_slice))
            (fields matrix_bad_key_and_slice)) as Hfields by constructor.
  assert (0 < 5)%Z as Hpos by by_evaluation.
  assert (Z.of_nat (ndim (array matrix_bad_key_and_slice)) ≤ 5)%Z as Hge
    by by_evaluation.
  split; [exact Hfields|]. do 2 (split; [reflexivity|]).
  split; [exact Hpos|]. split; [exact Hge|].
  exact (key_index_out_of_range matrix_bad_key_and_slice 5
           [(0, 9); (0, 4)]%Z Hfields eq_refl eq_refl Hpos (or_introl Hge)).
Defined.

Lemma unknown_key_name_rejected_witness :
  Forall (known_field (array matrix_by_depth)) (fields matrix_by_depth) ∧
  is_Some (nonempty_domain (array matrix_by_depth)) ∧
  key_dim matrix_by_depth = KeyName "depth" ∧
  ("depth" ∉ dim_names (array matrix_by_depth)) ∧
  __post_init__ matrix_by_depth
    = Raise (ValueError "'depth' is not in list").
Proof.
  assert (Forall (known_field (array matrix_by_depth))
            (fields matrix_by_depth)) as Hfields by constructor.
  assert ("depth" ∉ dim_names (array matrix_by_depth)) as Hnot
    by by_evaluation.
  assert (is_Some (nonempty_domain (array matrix_by_depth))) as Hdata
    by (eexists; reflexivity).
  split; [exact Hfields|]. split; [exact Hdata|]. split; [reflexivity|].
  split; [exact Hnot|].
  exact (unknown_key_name_rejected matrix_by_depth "depth" Hfields Hdata
           eq_refl Hnot).
Defined.

Lemma array_without_data_rejected_witness :
  nonempty_domain (array matrix_without_data) = None ∧
  Forall (known_field (array matrix_without_data))
    (fields matrix_without_data) ∧
  __post_init__ matrix_without_data
    = Raise (TypeError "'NoneType' object is not iterable").
Proof.
  assert (Forall (known_field (array matrix_without_data))
            (fields matrix_without_data)) as Hfields by constructor.
  split; [reflexivity|]. split; [exact Hfields|].
  exact (proj1 (proj2 (array_without_data_rejected matrix_without_data
                         eq_refl)) Hfields).
Defined.

Lemma resolved_dims_permutation_witness :
  __post_init__ images_by_width = Ok images_by_width_kw ∧
  _all_dims images_by_width_kw ≡ₚ dim_names (array images_by_width) ∧
  ∃ ned, nonempty_domain (array images_by_width) = Some ned ∧
         _ned images_by_width_kw ≡ₚ ned.
Proof.
  split; [reflexivity|].
  destruct (resolved_dims_permutation images_by_width images_by_width_kw
              eq_refl) as (Hdims & Hned & _).
  by split.
Defined.

Lemma swap_key_dim_round_trip_witness :
  __post_init__ images_by_width = Ok images_by_width_kw ∧
  ∃ ned, nonempty_domain (array images_by_width) = Some ned ∧
    swap_key_dim 2 ["width"; "height"; "rows"]
      [(0, 31); (0, 27); (0, 99)]%Z
    = Ok (["rows"; "height"; "width"], ned).
Proof.
  split; [reflexivity|].
  exact (swap_key_dim_round_trip images_by_width images_by_width_kw eq_refl).
Defined.

Lemma explicit_fields_partition_witness :
  __post_init__ images_mixed = Ok images_mixed_kw ∧
  fields images_mixed ≠ [] ∧
  _fields images_mixed_kw = ["label"; "height"; "pixel"; "rows"] ∧
  (length (_query_attrs images_mixed_kw)
   + length (_query_dims images_mixed_kw))%nat = length (fields images_mixed).
Proof.
  assert (fields images_mixed ≠ []) as Hne by by_evaluation.
  split; [reflexivity|]. split; [exact Hne|].
  destruct (explicit_fields_partition images_mixed images_mixed_kw eq_refl
              Hne) as (Hf & _ & _ & Hlen & _).
  by split.
Defined.

Lemma resolved_slice_indices_in_range_witness :
  __post_init__ images_cropped = Ok images_cropped_kw ∧
  (size (_secondary_slices images_cropped_kw)
   ≤ length (secondary_slices images_cropped))%nat.
Proof.
  split; [reflexivity|].
  exact (proj2 (resolved_slice_indices_in_range images_cropped
                  images_cropped_kw eq_refl)).
Defined.

Lemma secondary_slices_order_irrelevant_witness :
  __post_init__ images_cropped = Ok images_cropped_kw ∧
  NoDup (secondary_slices images_cropped).*1 ∧
  secondary_slices images_cropped ≡ₚ images_cropped_reordered ∧
  __post_init__ (with_secondary_slices images_cropped
                   images_cropped_reordered) = Ok images_cropped_kw.
Proof.
  assert (NoDup (secondary_slices images_cropped).*1) as Hnd
    by by_evaluation.
  assert (secondary_slices images_cropped ≡ₚ images_cropped_reordered)
    as Hperm by by_evaluation.
  split; [reflexivity|]. split; [exact Hnd|]. split; [exact Hperm|].
  exact (secondary_slices_order_irrelevant images_cropped images_cropped_kw
           images_cropped_reordered eq_refl Hnd Hperm).
Defined.

Lemma inferred_kind_agrees_with_array_witness :
  __post_init__ matrix_by_col = Ok matrix_by_col_kw ∧
  tensor_kind matrix_by_col = None ∧
  choose_tensor_kind matrix_by_col matrix_by_col_kw csr_off
    = Ok SPARSE_COO ∧
  to_tensor_schema matrix_by_col matrix_by_col_kw csr_off
    ≠ Raise (NotImplementedError (mapping_msg SPARSE_CSR)).
Proof.
  do 3 (split; [reflexivity|]).
  exact (proj2 (proj2 (proj2 (inferred_kind_agrees_with_array matrix_by_col
                                matrix_by_col_kw csr_off SPARSE_COO
                                eq_refl eq_refl eq_refl))) eq_refl).
Defined.

Lemma key_name_same_as_index_witness :
  NoDup (dim_names (array images_by_width)) ∧
  dim_names (array images_by_width) !! 2%nat = Some "width" ∧
  __post_init__ (with_key_dim images_by_width (KeyName "width"))
    = __post_init__ (with_key_dim images_by_width (KeyIndex 2)).
Proof.
  assert (NoDup (dim_names (array images_by_width))) as Hnd by by_evaluation.
  split; [exact Hnd|]. split; [reflexivity|].
  exact (key_name_same_as_index images_by_width "width" 2 Hnd eq_refl).
Defined.

Lemma queried_names_are_known_witness :
  __post_init__ images_mixed = Ok images_mixed_kw ∧
  Forall (fun f => f ∈ attr_names (array images_mixed))
    (_query_attrs images_mixed_kw) ∧
  Forall (fun f => f ∈ dim_names (array images_mixed))
    (_query_dims images_mixed_kw).
Proof.
  split; [reflexivity|].
  destruct (queried_names_are_known images_mixed images_mixed_kw eq_refl)
    as (Hattrs & Hdims & _).
  by split.
Defined.
